(** * backend/server.py: EMA crossover signals, mock market data and the
      WebSocket connection manager

    Shallow embedding of the computational part of [backend/server.py]:
    [calculate_ema], [get_trading_signal], [MOCK_COINS],
    [get_mock_coin_data], [ConnectionManager] and [websocket_endpoint],
    then [create_access_token], [get_current_user] and the routes of the
    accounts, the bot configuration and the subscriptions.

    Modelling conventions.
    - A Python [float] is modelled by an exact rational ([Q]); every finite
      float is a rational, and order comparisons on finite floats agree with
      the order of [Q].  Arithmetic is exact, NaN and infinities are outside
      the model: what is proved of computed values is their value up to
      the rounding of the floating-point operations.
    - Python strings are [string]; the signal names are the literals of the
      source.
    - The [random] module is an explicit generator state threaded through
      the code; exceptions are the [Err] case of [result].
    - The list [active_connections] is a [list] of socket handles, mutated
      by explicit state passing.
    - The MongoDB collections are lists of documents in insertion order, a
      document is an association list; the handlers of the HTTP routes
      pass the database explicitly and return an [outcome]. *)

From Stdlib Require Import ZArith QArith Qround List String Bool Lia Lqa.
From Stdlib Require Import DecimalString.
Import ListNotations.

Local Open Scope string_scope.
Local Open Scope Q_scope.

(** * Part I: the program *)

(** ** Python values *)

(** [a > b] on floats. *)
Definition Qgtb (a b : Q) : bool := negb (Qle_bool a b).

(** Exceptions the modelled code can raise, and the outcome of a call. *)
Inductive exn : Type :=
| ValueError (msg : string)
| WebSocketDisconnect
| RuntimeError (msg : string).

Inductive result (A : Type) : Type :=
| Ok (a : A)
| Err (e : exn).
Arguments Ok {A} a.
Arguments Err {A} e.

Definition raises {A : Type} (r : result A) : bool :=
  match r with Ok _ => false | Err _ => true end.

(** [round(x, ndigits)]: the nearest multiple of [10^-ndigits], ties going
    to the even multiple. *)
Definition round_half_even (x : Q) : Z :=
  let f := Qfloor x in
  let r := x - inject_Z f in
  if Qgtb (1 # 2) r then f
  else if Qgtb r (1 # 2) then (f + 1)%Z
  else if Z.even f then f else (f + 1)%Z.

Definition round (x : Q) (ndigits : nat) : Q :=
  let p := (10 ^ Z.of_nat ndigits)%Z in
  inject_Z (round_half_even (x * inject_Z p)) / inject_Z p.

(** [list.remove(x)]: drops the first occurrence. *)
Fixpoint list_remove (x : nat) (l : list nat) : list nat :=
  match l with
  | [] => []
  | y :: l' => if Nat.eqb x y then l' else y :: list_remove x l'
  end.

(** ** calculate_ema *)

(** [pandas.Series.ewm(span=period).mean()] with the defaults the source
    leaves in place ([adjust=True], [ignore_na=False], [min_periods=0]), on
    a series without NaN.  pandas validates the span
    ([get_center_of_mass]) and then runs the loop of its [ewma] kernel:
    the running average and the accumulated weight [old_wt] are carried
    from one observation to the next. *)
Definition get_center_of_mass (span : Z) : result Q :=
  if (span <? 1)%Z then Err (ValueError "span must satisfy: span >= 1")
  else Ok ((inject_Z span - 1) / 2).

Fixpoint ewma_loop (old_wt_factor new_wt weighted_avg old_wt : Q)
    (vals : list Q) : list Q :=
  match vals with
  | [] => []
  | cur :: rest =>
      let old_wt := old_wt * old_wt_factor in
      let weighted_avg :=
        if Qeq_bool weighted_avg cur then weighted_avg
        else (old_wt * weighted_avg + new_wt * cur) / (old_wt + new_wt) in
      let old_wt := old_wt + new_wt in
      weighted_avg :: ewma_loop old_wt_factor new_wt weighted_avg old_wt rest
  end.

Definition ewma (vals : list Q) (com : Q) : list Q :=
  let alpha := 1 / (1 + com) in
  let old_wt_factor := 1 - alpha in
  let new_wt := 1 in
  match vals with
  | [] => []
  | v0 :: rest => v0 :: ewma_loop old_wt_factor new_wt v0 1 rest
  end.

Definition ewm_mean (vals : list Q) (span : Z) : result (list Q) :=
  match get_center_of_mass span with
  | Err e => Err e
  | Ok com => Ok (ewma vals com)
  end.

Definition calculate_ema (prices : list Q) (period : Z) : result (list Q) :=
  if (Z.of_nat (List.length prices) <? period)%Z then
    Ok (repeat 0 (List.length prices))
  else
    ewm_mean prices period.

(** The weight pandas has accumulated after observation [k] when the decay
    factor is [q]: [1 + q + ... + q^k]. *)
Fixpoint weight_sum (q : Q) (k : nat) : Q :=
  match k with
  | O => 1
  | S k' => 1 + q * weight_sum q k'
  end.

(** The numerator of pandas' adjusted average, on the observations so far
    with the newest first: each older observation is decayed once more. *)
Fixpoint decayed_sum (q : Q) (newest_first : list Q) : Q :=
  match newest_first with
  | [] => 0
  | x :: older => x + q * decayed_sum q older
  end.

(** The smoothing factor of a span. *)
Definition smoothing (span : Z) : Q := 2 / (inject_Z span + 1).

(** ** get_trading_signal *)

Definition get_trading_signal (ema9 ema21 prev_ema9 prev_ema21 : Q) : string :=
  let current_signal := if Qgtb ema9 ema21 then "BUY" else "SELL" in
  let prev_signal := if Qgtb prev_ema9 prev_ema21 then "BUY" else "SELL" in
  if String.eqb current_signal "BUY" && String.eqb prev_signal "SELL" then
    "STRONG_BUY"
  else if String.eqb current_signal "SELL" && String.eqb prev_signal "BUY" then
    "STRONG_SELL"
  else
    current_signal.

(** ** Mock market data *)

Record CoinData : Type := mkCoinData {
  symbol : string;
  price : Q;
  change_24h : Q;
  volume_24h : Q;
  ema9 : option Q;
  ema21 : option Q;
  signal : option string
}.

Definition MOCK_COINS : list string :=
  [ "BTCUSDT"; "ETHUSDT"; "BNBUSDT"; "ADAUSDT"; "SOLUSDT";
    "XRPUSDT"; "DOTUSDT"; "DOGEUSDT"; "AVAXUSDT"; "LUNAUSDT" ].

Section RandomSource.

(** The state of the [random] module and [random.random()], which returns
    the next draw together with the advanced state. *)
Variable rng : Type.
Variable random : rng -> Q * rng.

(** [random.random()] draws from the half-open unit interval. *)
Definition unit_interval : Prop :=
  forall g, 0 <= fst (random g) /\ fst (random g) < 1.

(** [random.uniform(a, b)] is [a + (b - a) * random()]. *)
Definition uniform (a b : Q) (g : rng) : Q * rng :=
  let (u, g) := random g in (a + (b - a) * u, g).

(** One iteration of the loop of [get_mock_coin_data]. *)
Definition mock_coin (sym : string) (g : rng) : CoinData * rng :=
  let (base_price, g) := uniform (1 # 10) 50000 g in
  let (change, g) := uniform (-15) 15 g in
  let (volume, g) := uniform 1000000 100000000 g in
  let (f9, g) := uniform (98 # 100) (102 # 100) g in
  let e9 := base_price * f9 in
  let (f21, g) := uniform (97 # 100) (103 # 100) g in
  let e21 := base_price * f21 in
  let sig := if Qgtb e9 e21 then "BUY" else "SELL" in
  ({| symbol := sym;
      price := round base_price 6;
      change_24h := round change 2;
      volume_24h := round volume 2;
      ema9 := Some (round e9 6);
      ema21 := Some (round e21 6);
      signal := Some sig |}, g).

Fixpoint mock_coins_loop (symbols : list string) (coins : list CoinData)
    (g : rng) : list CoinData * rng :=
  match symbols with
  | [] => (coins, g)
  | sym :: rest =>
      let (c, g) := mock_coin sym g in
      mock_coins_loop rest (coins ++ [c]) g
  end.

Definition get_mock_coin_data (g : rng) : list CoinData * rng :=
  mock_coins_loop MOCK_COINS [] g.

End RandomSource.

(** A reproducible random source for the examples: a linear congruential
    generator on 31 bits, scaled to the unit interval. *)
Definition lcg_random (x : Z) : Q * Z :=
  let x' := ((1103515245 * x + 12345) mod 2147483648)%Z in
  (x' # 2147483648, x').

Arguments unit_interval {rng} random.
Arguments uniform {rng} random a b g.
Arguments mock_coin {rng} random sym g.
Arguments mock_coins_loop {rng} random symbols coins g.
Arguments get_mock_coin_data {rng} random g.

(** ** ConnectionManager and the WebSocket endpoint *)

(** A socket is known by its identity only. *)
Definition WebSocket : Type := nat.

(** What the server does on the network and the clock, in order. *)
Inductive event : Type :=
| Accepted (ws : WebSocket)
| AcceptFailed (ws : WebSocket) (e : exn)
| Sent (ws : WebSocket) (message : string)
| SendFailed (ws : WebSocket) (message : string) (e : exn)
| Slept (seconds : Z).

(** The sends a trace attempted, successful or not. *)
Definition send_attempt (ev : event) : option (WebSocket * string) :=
  match ev with
  | Sent ws message | SendFailed ws message _ => Some (ws, message)
  | _ => None
  end.

Fixpoint send_attempts (tr : list event) : list (WebSocket * string) :=
  match tr with
  | [] => []
  | ev :: tr' =>
      match send_attempt ev with
      | Some a => a :: send_attempts tr'
      | None => send_attempts tr'
      end
  end.

Record ConnectionManager : Type := mkManager {
  active_connections : list WebSocket
}.

Inductive status : Type :=
| Running
| Returned
| Raised (e : exn).

Section Server.

Variable rng : Type.
Variable random : rng -> Q * rng.

(** The transport: whether the next operation on a socket raises, given
    everything that happened so far. *)
Variable net : list event -> WebSocket -> option exn.

(** [json.dumps] of the [coins_update] message. *)
Variable json_dumps : list CoinData -> string.

(** The module-level [manager], the events so far and the state of
    [random]. *)
Record world : Type := mkWorld {
  manager : ConnectionManager;
  trace : list event;
  gen : rng
}.

(** Computations over the world that may raise. *)
Definition M (A : Type) : Type := world -> result A * world.

Definition ret {A : Type} (a : A) : M A := fun w => (Ok a, w).

Definition raise {A : Type} (e : exn) : M A := fun w => (Err e, w).

Definition bind {A B : Type} (m : M A) (k : A -> M B) : M B :=
  fun w =>
    match m w with
    | (Ok a, w') => k a w'
    | (Err e, w') => (Err e, w')
    end.

Definition try_except {A : Type} (m : M A) (handler : exn -> M A) : M A :=
  fun w =>
    match m w with
    | (Ok a, w') => (Ok a, w')
    | (Err e, w') => handler e w'
    end.

Local Notation "x <- m ;; k" := (bind m (fun x => k))
  (at level 61, m at next level, right associativity).
Local Notation "m ;; k" := (bind m (fun _ => k))
  (at level 61, right associativity).

Definition emit (ev : event) : M unit :=
  fun w => (Ok tt, mkWorld (manager w) (trace w ++ [ev]) (gen w)).

Definition set_connections (l : list WebSocket) : M unit :=
  fun w => (Ok tt, mkWorld (mkManager l) (trace w) (gen w)).

Definition get_connections : M (list WebSocket) :=
  fun w => (Ok (active_connections (manager w)), w).

(** [websocket.accept()] and [websocket.send_text(message)]. *)
Definition accept (ws : WebSocket) : M unit :=
  fun w =>
    match net (trace w) ws with
    | None => emit (Accepted ws) w
    | Some e => (emit (AcceptFailed ws e) ;; raise e) w
    end.

Definition send_text (ws : WebSocket) (message : string) : M unit :=
  fun w =>
    match net (trace w) ws with
    | None => emit (Sent ws message) w
    | Some e => (emit (SendFailed ws message e) ;; raise e) w
    end.

(** [asyncio.sleep(seconds)], in a task that is not cancelled: the
    cancellation of a handler is not modelled. *)
Definition sleep (seconds : Z) : M unit := emit (Slept seconds).

Definition connect (websocket : WebSocket) : M unit :=
  accept websocket ;;
  l <- get_connections ;;
  set_connections (l ++ [websocket]).

Definition disconnect (websocket : WebSocket) : M unit :=
  l <- get_connections ;;
  if existsb (Nat.eqb websocket) l then
    set_connections (list_remove websocket l)
  else
    ret tt.

Definition send_personal_message (message : string) (websocket : WebSocket)
    : M unit :=
  send_text websocket message.

(** What the other tasks do to the registry while this task is suspended
    in an await, given everything that happened so far. *)
Variable others : list event -> list WebSocket -> list WebSocket.

(** The other tasks leave the registry alone. *)
Definition quiet : Prop := forall tr l, others tr l = l.

Definition yield_to_others : M unit :=
  fun w =>
    set_connections (others (trace w) (active_connections (manager w))) w.

(** [for connection in self.active_connections]: the iterator of the loop
    keeps an index into the list itself, not into a copy, and reads the
    list anew at every step, as the other tasks have left it during the
    await of the send before.  [fuel] bounds the number of steps; the
    result tells whether the iteration has reached the end of the list. *)
Fixpoint broadcast_from (fuel index : nat) (message : string) : M bool :=
  match fuel with
  | O => ret false
  | S fuel' =>
      l <- get_connections ;;
      match nth_error l index with
      | None => ret true
      | Some connection =>
          try_except (send_text connection message) (fun _ => ret tt) ;;
          yield_to_others ;;
          broadcast_from fuel' (S index) message
      end
  end.

Definition broadcast (fuel : nat) (message : string) : M bool :=
  broadcast_from fuel 0 message.

(** [get_mock_coin_data()] drawing from the world's generator. *)
Definition mock_coin_data : M (list CoinData) :=
  fun w =>
    let (coins, g) := get_mock_coin_data random (gen w) in
    (Ok coins, mkWorld (manager w) (trace w) g).

(** The body of [while True] in [websocket_endpoint]. *)
Definition endpoint_tick (websocket : WebSocket) : M unit :=
  coins_data <- mock_coin_data ;;
  send_personal_message (json_dumps coins_data) websocket ;;
  sleep 5.

(** [n] iterations of the loop: [Ok] when it is still running after them,
    [Err] when an exception left it. *)
Fixpoint endpoint_loop (n : nat) (websocket : WebSocket) : M unit :=
  match n with
  | O => ret tt
  | S n' => endpoint_tick websocket ;; endpoint_loop n' websocket
  end.

Definition websocket_endpoint (n : nat) (websocket : WebSocket)
    (w : world) : status * world :=
  match connect websocket w with
  | (Err e, w1) => (Raised e, w1)
  | (Ok _, w1) =>
      match endpoint_loop n websocket w1 with
      | (Ok _, w2) => (Running, w2)
      | (Err WebSocketDisconnect, w2) =>
          (Returned, snd (disconnect websocket w2))
      | (Err e, w2) => (Raised e, w2)
      end
  end.

End Server.

(** Transports and a serializer for the examples: [flaky_net dead e after]
    raises [e] on every operation on the socket [dead] once [after] events
    have happened, and nothing else fails. *)
Definition flaky_net (dead : WebSocket) (e : exn) (after : nat)
    (tr : list event) (ws : WebSocket) : option exn :=
  if Nat.eqb ws dead && Nat.leb after (List.length tr) then Some e else None.

Definition json_symbols (coins : list CoinData) : string :=
  String.concat "," (map symbol coins).

(** Other tasks for the examples: none at all, and the handler of a socket
    that disconnects it as soon as a send to it has failed. *)
Definition no_others (tr : list event) (l : list WebSocket)
    : list WebSocket := l.

Definition handler_disconnects (tr : list event) (l : list WebSocket)
    : list WebSocket :=
  match last tr (Slept 0) with
  | SendFailed ws _ _ => list_remove ws l
  | _ => l
  end.

Arguments mkWorld {rng} manager trace gen.
Arguments manager {rng} w.
Arguments trace {rng} w.
Arguments gen {rng} w.
Arguments ret {rng A} a w.
Arguments raise {rng A} e w.
Arguments bind {rng A B} m k w.
Arguments try_except {rng A} m handler w.
Arguments emit {rng} ev w.
Arguments set_connections {rng} l w.
Arguments get_connections {rng} w.
Arguments accept {rng} net ws w.
Arguments send_text {rng} net ws message w.
Arguments sleep {rng} seconds w.
Arguments connect {rng} net websocket w.
Arguments disconnect {rng} websocket w.
Arguments send_personal_message {rng} net message websocket w.
Arguments yield_to_others {rng} others w.
Arguments broadcast_from {rng} net others fuel index message w.
Arguments broadcast {rng} net others fuel message w.
Arguments mock_coin_data {rng} random w.
Arguments endpoint_tick {rng} random net json_dumps websocket w.
Arguments endpoint_loop {rng} random net json_dumps n websocket w.
Arguments websocket_endpoint {rng} random net json_dumps n websocket w.

(** ** Documents, collections and the HTTP layer *)

(** The values the handlers store and read.  A [datetime] is its number of
    microseconds since 0001-01-01T00:00:00. *)
Inductive value : Type :=
| VNone
| VBool (b : bool)
| VInt (n : Z)
| VFloat (q : Q)
| VStr (s : string)
| VTime (t : Z).

(** A Python [dict] with string keys, in insertion order; a collection is
    the list of its documents in insertion order.  The [_id] the driver
    adds to an inserted document is left out: no handler reads it, and a
    document that was found is truthy because of it. *)
Definition document : Type := list (string * value).
Definition collection : Type := list document.

Inductive http_exn : Type :=
| HTTPException (status_code : Z) (detail : string)
| JWTError
| KeyError (key : string)
| AttributeError
| OverflowError
| LibraryError (msg : string).

Inductive outcome (A : Type) : Type :=
| Return (a : A)
| Raise (e : http_exn).
Arguments Return {A} a.
Arguments Raise {A} e.

(** Truth value of a Python object. *)
Definition truthy (v : value) : bool :=
  match v with
  | VNone => false
  | VBool b => b
  | VInt n => negb (n =? 0)%Z
  | VFloat q => negb (Qeq_bool q 0)
  | VStr s => negb (String.eqb s "")
  | VTime _ => true
  end.

(** [d.get(k)] as an option, [d[k]], [d.get(k, default)], [d[k] = v] and
    [d.update(other)]. *)
Fixpoint doc_get (k : string) (d : document) : option value :=
  match d with
  | [] => None
  | (k', v) :: d' => if String.eqb k k' then Some v else doc_get k d'
  end.

Definition doc_item (k : string) (d : document) : outcome value :=
  match doc_get k d with
  | Some v => Return v
  | None => Raise (KeyError k)
  end.

Definition doc_get_default (k : string) (default : value) (d : document)
    : value :=
  match doc_get k d with
  | Some v => v
  | None => default
  end.

Fixpoint doc_set (k : string) (v : value) (d : document) : document :=
  match d with
  | [] => [(k, v)]
  | (k', v') :: d' =>
      if String.eqb k k' then (k, v) :: d' else (k', v') :: doc_set k v d'
  end.

Definition doc_update (d other : document) : document :=
  fold_left (fun acc kv => doc_set (fst kv) (snd kv) acc) other d.

(** Equality of a query value and a stored value in a MongoDB filter:
    numbers compare by value across [int] and [float], everything else
    within its own type; a [null] query also matches a missing field. *)
Definition value_match (q v : value) : bool :=
  match q, v with
  | VNone, VNone => true
  | VBool a, VBool b => Bool.eqb a b
  | VInt a, VInt b => (a =? b)%Z
  | VInt a, VFloat b => Qeq_bool (inject_Z a) b
  | VFloat a, VInt b => Qeq_bool a (inject_Z b)
  | VFloat a, VFloat b => Qeq_bool a b
  | VStr a, VStr b => String.eqb a b
  | VTime a, VTime b => (a =? b)%Z
  | _, _ => false
  end.

Definition doc_matches (k : string) (q : value) (d : document) : bool :=
  match doc_get k d with
  | Some v => value_match q v
  | None => match q with VNone => true | _ => false end
  end.

(** What BSON keeps of a value that is written: a [datetime] to the
    millisecond, and an [int] only when it fits into 64 bits. *)
Definition int64 (n : Z) : bool :=
  ((-9223372036854775808 <=? n) && (n <=? 9223372036854775807))%Z.

Definition bson_value (v : value) : outcome value :=
  match v with
  | VTime t => Return (VTime (t - t mod 1000))
  | VInt n => if int64 n then Return (VInt n) else Raise OverflowError
  | _ => Return v
  end.

Fixpoint bson_document (d : document) : outcome document :=
  match d with
  | [] => Return []
  | (k, v) :: d' =>
      match bson_value v with
      | Raise e => Raise e
      | Return v' =>
          match bson_document d' with
          | Raise e => Raise e
          | Return d'' => Return ((k, v') :: d'')
          end
      end
  end.

(** [find_one({k: q})]. *)
Definition find_one (k : string) (q : value) (c : collection)
    : option document :=
  find (doc_matches k q) c.

(** The effect of an update with the [$set] document [sets] on the stored
    collection: on the first matching document, or as a new document made
    of the filter and [sets] when none matches and [upsert] is set. *)
Fixpoint update_first (k : string) (q : value) (sets : document)
    (c : collection) : collection :=
  match c with
  | [] => []
  | d :: c' =>
      if doc_matches k q d then doc_update d sets :: c'
      else d :: update_first k q sets c'
  end.

Definition apply_update (k : string) (q : value) (sets : document)
    (upsert : bool) (c : collection) : collection :=
  if existsb (doc_matches k q) c then update_first k q sets c
  else if upsert then (c ++ [doc_update [(k, q)] sets])%list
  else c.

(** [insert_one(d)] and [update_one({k: q}, {"$set": sets}, upsert=...)]:
    what is written goes through BSON, and nothing is written when that
    fails.  The filter value is a text or the value of a stored document,
    which BSON holds as it is. *)
Definition insert_one (d : document) (c : collection) : outcome collection :=
  match bson_document d with
  | Raise e => Raise e
  | Return d' => Return (c ++ [d'])%list
  end.

Definition update_one (k : string) (q : value) (sets : document)
    (upsert : bool) (c : collection) : outcome collection :=
  match bson_document sets with
  | Raise e => Raise e
  | Return sets' => Return (apply_update k q sets' upsert c)
  end.

(** [timedelta(days=n)] and [datetime + timedelta], with the ranges of
    CPython: at most 999999999 days either way, and years 1 to 9999. *)
Definition microseconds_per_day : Z := 86400000000.

Definition datetime_max : Z := 3652059 * microseconds_per_day - 1.

Definition timedelta_days (days : Z) : outcome Z :=
  if (Z.abs days <=? 999999999)%Z then Return (days * microseconds_per_day)%Z
  else Raise OverflowError.

Definition datetime_add (t delta : Z) : outcome Z :=
  let r := (t + delta)%Z in
  if ((0 <=? r) && (r <=? datetime_max))%Z then Return r
  else Raise OverflowError.

(** [str(n)] of an [int]. *)
Definition str_of_int (n : Z) : string := NilZero.string_of_int (Z.to_int n).

(** The request bodies. *)
Record UserRegister : Type := mkUserRegister {
  reg_email : string;
  reg_password : string;
  reg_name : string
}.

Record UserLogin : Type := mkUserLogin {
  login_email : string;
  login_password : string
}.

Record BotConfig : Type := mkBotConfig {
  bot_symbol : string;
  bot_timeframe : string;
  bot_leverage : Z;
  bot_take_profit : Q;
  bot_stop_loss : Q;
  bot_position_size : Q
}.

Record ApiKeyUpdate : Type := mkApiKeyUpdate {
  api_key : string;
  api_secret : string
}.

(** [BotConfig()] with the defaults of the class, and [config.dict()]. *)
Definition default_bot_config : BotConfig :=
  mkBotConfig "BTCUSDT" "1m" 1 2 1 10.

Definition bot_config_dict (c : BotConfig) : document :=
  [ ("symbol", VStr (bot_symbol c));
    ("timeframe", VStr (bot_timeframe c));
    ("leverage", VInt (bot_leverage c));
    ("take_profit", VFloat (bot_take_profit c));
    ("stop_loss", VFloat (bot_stop_loss c));
    ("position_size", VFloat (bot_position_size c)) ].

(** The responses with nested objects. *)
Record AuthResponse : Type := mkAuthResponse {
  access_token : string;
  token_type : string;
  auth_user_id : value;
  auth_email : value;
  auth_name : value
}.

Record ProfileResponse : Type := mkProfileResponse {
  profile_user_id : value;
  profile_email : value;
  profile_name : value;
  profile_is_admin : value;
  has_api_key : bool;
  subscription_is_active : value;
  subscription_expires_at : value
}.

(** The collections the handlers use. *)
Record database : Type := mkDatabase {
  users_collection : collection;
  bot_configs_collection : collection;
  subscriptions_collection : collection
}.

Definition obind {A B : Type} (m : outcome A) (k : A -> outcome B)
    : outcome B :=
  match m with
  | Return a => k a
  | Raise e => Raise e
  end.

(** ** Authentication and the HTTP routes *)

Section Http.

(** [bcrypt.hashpw(password, salt)] and [bcrypt.checkpw(password, hashed)]
    on text, either of which can raise (a password that cannot be encoded
    or is too long, a malformed hash); [jwt.encode] and [jwt.decode] with
    the secret and algorithm of the module. *)
Variable hashpw : string -> string -> outcome string.
Variable checkpw : string -> string -> outcome bool.
Variable jwt_encode : document -> string.
Variable jwt_decode : string -> outcome document.

Local Notation "x <- m ;; k" := (obind m (fun x => k))
  (at level 61, m at next level, right associativity).

(** [salt] is the value of [bcrypt.gensalt()]. *)
Definition hash_password (password salt : string) : outcome string :=
  hashpw password salt.

Definition verify_password (password hashed_password : string)
    : outcome bool :=
  checkpw password hashed_password.

(** [utcnow] is the value of [datetime.utcnow()]; a zero [timedelta] is
    falsy, like a missing one. *)
Definition create_access_token (data : document) (expires_delta : option Z)
    (utcnow : Z) : outcome string :=
  let to_encode := data in
  let given :=
    match expires_delta with
    | Some d => if (d =? 0)%Z then None else Some d
    | None => None
    end in
  expire <-
    match given with
    | Some d => datetime_add utcnow d
    | None => (week <- timedelta_days 7 ;; datetime_add utcnow week)
    end ;;
  let to_encode := doc_update to_encode [("exp", VTime expire)] in
  Return (jwt_encode to_encode).

Definition get_current_user (token : string) (db : database)
    : outcome document :=
  match jwt_decode token with
  | Raise JWTError => Raise (HTTPException 401 "Invalid token")
  | Raise e => Raise e
  | Return payload =>
      match doc_get_default "sub" VNone payload with
      | VNone => Raise (HTTPException 401 "Invalid token")
      | user_id =>
          match find_one "user_id" user_id (users_collection db) with
          | None => Raise (HTTPException 401 "User not found")
          | Some user => Return user
          end
      end
  end.

(** A handler that writes: the outcome and the database after it. *)
Definition H (A : Type) : Type := database -> outcome A * database.

(** [uuid4] is the text of [uuid.uuid4()], [salt] the value of
    [bcrypt.gensalt()], and the three times are the values of the three
    calls of [datetime.utcnow()], in the order of the calls. *)
Definition register (user : UserRegister) (uuid4 salt : string)
    (t_user t_subscription t_token : Z) : H AuthResponse :=
  fun db =>
    match find_one "email" (VStr (reg_email user)) (users_collection db) with
    | Some _ => (Raise (HTTPException 400 "User already exists"), db)
    | None =>
        let user_id := uuid4 in
        match hash_password (reg_password user) salt with
        | Raise e => (Raise e, db)
        | Return hashed_password =>
            let new_user :=
              [ ("user_id", VStr user_id);
                ("email", VStr (reg_email user));
                ("name", VStr (reg_name user));
                ("password", VStr hashed_password);
                ("created_at", VTime t_user);
                ("is_admin", VBool false);
                ("api_key", VNone);
                ("api_secret", VNone) ] in
            match insert_one new_user (users_collection db) with
            | Raise e => (Raise e, db)
            | Return users =>
                let db :=
                  mkDatabase users (bot_configs_collection db)
                             (subscriptions_collection db) in
                let subscription :=
                  [ ("user_id", VStr user_id);
                    ("is_active", VBool false);
                    ("expires_at", VNone);
                    ("created_at", VTime t_subscription) ] in
                match
                  insert_one subscription (subscriptions_collection db)
                with
                | Raise e => (Raise e, db)
                | Return subscriptions =>
                    let db :=
                      mkDatabase (users_collection db)
                                 (bot_configs_collection db) subscriptions in
                    match
                      create_access_token [("sub", VStr user_id)] None
                        t_token
                    with
                    | Raise e => (Raise e, db)
                    | Return token =>
                        (Return
                           (mkAuthResponse token "bearer" (VStr user_id)
                              (VStr (reg_email user))
                              (VStr (reg_name user))), db)
                    end
                end
            end
        end
    end.

Definition login (user : UserLogin) (t_token : Z) (db : database)
    : outcome AuthResponse :=
  match find_one "email" (VStr (login_email user)) (users_collection db) with
  | None => Raise (HTTPException 401 "Invalid credentials")
  | Some db_user =>
      stored <- doc_item "password" db_user ;;
      match stored with
      | VStr hashed =>
          ok <- verify_password (login_password user) hashed ;;
          if ok then
            sub <- doc_item "user_id" db_user ;;
            token <- create_access_token [("sub", sub)] None t_token ;;
            uid <- doc_item "user_id" db_user ;;
            email <- doc_item "email" db_user ;;
            name <- doc_item "name" db_user ;;
            Return (mkAuthResponse token "bearer" uid email name)
          else Raise (HTTPException 401 "Invalid credentials")
      | _ => Raise AttributeError
      end
  end.

Definition get_profile (current_user : document) (db : database)
    : outcome ProfileResponse :=
  key <- doc_item "user_id" current_user ;;
  let subscription := find_one "user_id" key (subscriptions_collection db) in
  uid <- doc_item "user_id" current_user ;;
  email <- doc_item "email" current_user ;;
  name <- doc_item "name" current_user ;;
  Return (mkProfileResponse uid email name
            (doc_get_default "is_admin" (VBool false) current_user)
            (truthy (doc_get_default "api_key" VNone current_user))
            (match subscription with
             | Some s => doc_get_default "is_active" (VBool false) s
             | None => VBool false
             end)
            (match subscription with
             | Some s => doc_get_default "expires_at" VNone s
             | None => VNone
             end)).

Definition update_api_key (api_data : ApiKeyUpdate) (current_user : document)
    (utcnow : Z) : H string :=
  fun db =>
    match doc_item "user_id" current_user with
    | Raise e => (Raise e, db)
    | Return key =>
        match
          update_one "user_id" key
            [ ("api_key", VStr (api_key api_data));
              ("api_secret", VStr (api_secret api_data));
              ("updated_at", VTime utcnow) ]
            false (users_collection db)
        with
        | Raise e => (Raise e, db)
        | Return users =>
            (Return "API keys updated successfully",
             mkDatabase users (bot_configs_collection db)
                        (subscriptions_collection db))
        end
    end.

Definition get_bot_config (current_user : document) (db : database)
    : outcome document :=
  key <- doc_item "user_id" current_user ;;
  match find_one "user_id" key (bot_configs_collection db) with
  | None => Return (bot_config_dict default_bot_config)
  | Some config =>
      Return
        [ ("symbol", doc_get_default "symbol" (VStr "BTCUSDT") config);
          ("timeframe", doc_get_default "timeframe" (VStr "1m") config);
          ("leverage", doc_get_default "leverage" (VInt 1) config);
          ("take_profit", doc_get_default "take_profit" (VFloat 2) config);
          ("stop_loss", doc_get_default "stop_loss" (VFloat 1) config);
          ("position_size",
             doc_get_default "position_size" (VFloat 10) config);
          ("is_active", doc_get_default "is_active" (VBool false) config) ]
  end.

Definition update_bot_config (config : BotConfig) (current_user : document)
    (utcnow : Z) : H string :=
  fun db =>
    match doc_item "user_id" current_user with
    | Raise e => (Raise e, db)
    | Return key =>
        let sets :=
          doc_update (bot_config_dict config)
            [ ("user_id", key); ("updated_at", VTime utcnow) ] in
        match
          update_one "user_id" key sets true (bot_configs_collection db)
        with
        | Raise e => (Raise e, db)
        | Return bot_configs =>
            (Return "Bot configuration updated successfully",
             mkDatabase (users_collection db) bot_configs
                        (subscriptions_collection db))
        end
    end.

Definition start_bot (current_user : document) (utcnow : Z) : H string :=
  fun db =>
    match doc_item "user_id" current_user with
    | Raise e => (Raise e, db)
    | Return key =>
        let subscription :=
          find_one "user_id" key (subscriptions_collection db) in
        let active :=
          match subscription with
          | Some s => truthy (doc_get_default "is_active" VNone s)
          | None => false
          end in
        if negb active then
          (Raise (HTTPException 403 "Active subscription required"), db)
        else
          match
            update_one "user_id" key
              [ ("is_active", VBool true); ("started_at", VTime utcnow) ]
              true (bot_configs_collection db)
          with
          | Raise e => (Raise e, db)
          | Return bot_configs =>
              (Return "Bot started successfully",
               mkDatabase (users_collection db) bot_configs
                          (subscriptions_collection db))
          end
    end.

Definition stop_bot (current_user : document) (utcnow : Z) : H string :=
  fun db =>
    match doc_item "user_id" current_user with
    | Raise e => (Raise e, db)
    | Return key =>
        match
          update_one "user_id" key
            [ ("is_active", VBool false); ("stopped_at", VTime utcnow) ]
            false (bot_configs_collection db)
        with
        | Raise e => (Raise e, db)
        | Return bot_configs =>
            (Return "Bot stopped successfully",
             mkDatabase (users_collection db) bot_configs
                        (subscriptions_collection db))
        end
    end.

(** The two times are the values of the two calls of
    [datetime.utcnow()]. *)
Definition update_subscription (user_id : string) (days : Z)
    (current_user : document) (t_expiry t_update : Z) : H string :=
  fun db =>
    if negb (truthy (doc_get_default "is_admin" VNone current_user)) then
      (Raise (HTTPException 403 "Admin access required"), db)
    else
      match (delta <- timedelta_days days ;; datetime_add t_expiry delta) with
      | Raise e => (Raise e, db)
      | Return expires_at =>
          match
            update_one "user_id" (VStr user_id)
              [ ("is_active", VBool true);
                ("expires_at", VTime expires_at);
                ("updated_at", VTime t_update) ]
              true (subscriptions_collection db)
          with
          | Raise e => (Raise e, db)
          | Return subscriptions =>
              (Return
                 ("Subscription updated for " ++ str_of_int days ++ " days"),
               mkDatabase (users_collection db) (bot_configs_collection db)
                          subscriptions)
          end
      end.

End Http.

(** ** Auxiliary notions for the further properties *)

(** The e-mail addresses of the stored users, one entry per document that
    has a text in its [email] field. *)
Fixpoint email_keys (c : collection) : list string :=
  match c with
  | [] => []
  | d :: c' =>
      match doc_get "email" d with
      | Some (VStr s) => s :: email_keys c'
      | _ => email_keys c'
      end
  end.

(** Example implementations of the libraries for the example runs: a
    "hash" that keeps salt and password apart by a separator, and a token
    that is the subject of the payload. *)
Definition toy_hashpw (password salt : string) : outcome string :=
  Return (salt ++ "$" ++ password).

Definition toy_checkpw (password hashed : string) : outcome bool :=
  match index 0 "$" hashed with
  | Some n =>
      Return (String.eqb password
                (substring (S n) (String.length hashed - S n) hashed))
  | None => Raise (LibraryError "Invalid salt")
  end.

Definition toy_jwt_encode (payload : document) : string :=
  match doc_get "sub" payload with
  | Some (VStr s) => s
  | _ => ""
  end.

Definition toy_jwt_decode (token : string) : outcome document :=
  if String.eqb token "" then Raise JWTError
  else Return [("sub", VStr token)].

(** The state of the random source after one draw. *)
Definition next_state {rng : Type} (random : rng -> Q * rng) (g : rng) : rng :=
  snd (random g).


(** * Part II: properties *)

(** ** Comparisons and rounding *)

Lemma Qgtb_true_iff (a b : Q) : Qgtb a b = true <-> b < a.
Proof.
  unfold Qgtb. rewrite negb_true_iff.
  destruct (Qle_bool a b) eqn:E.
  - apply Qle_bool_iff in E. split; [discriminate | intros H; lra].
  - split; [intros _ | reflexivity].
    apply Qnot_le_lt. intros H. apply Qle_bool_iff in H. congruence.
Qed.

Lemma Qgtb_false_iff (a b : Q) : Qgtb a b = false <-> a <= b.
Proof.
  unfold Qgtb. rewrite negb_false_iff. apply Qle_bool_iff.
Qed.

Lemma round_half_even_floor (x : Q) :
  round_half_even x = Qfloor x \/ round_half_even x = (Qfloor x + 1)%Z.
Proof.
  unfold round_half_even.
  destruct (Qgtb (1 # 2) (x - inject_Z (Qfloor x))); [now left |].
  destruct (Qgtb (x - inject_Z (Qfloor x)) (1 # 2)); [now right |].
  destruct (Z.even (Qfloor x)); [now left | now right].
Qed.

Lemma round_half_even_ge (x : Q) (k : Z) :
  inject_Z k <= x -> (k <= round_half_even x)%Z.
Proof.
  intros H. apply Qfloor_resp_le in H. rewrite Qfloor_Z in H.
  destruct (round_half_even_floor x) as [-> | ->]; lia.
Qed.

Lemma round_half_even_le (x : Q) (k : Z) :
  x <= inject_Z k -> (round_half_even x <= k)%Z.
Proof.
  intros H.
  assert (Hf : (Qfloor x <= k)%Z).
  { apply Qfloor_resp_le in H. now rewrite Qfloor_Z in H. }
  destruct (Z.eq_dec (Qfloor x) k) as [E | NE].
  - unfold round_half_even.
    destruct (Qgtb (1 # 2) (x - inject_Z (Qfloor x))) eqn:G; [lia |].
    apply Qgtb_false_iff in G. rewrite E in G. lra.
  - destruct (round_half_even_floor x) as [-> | ->]; lia.
Qed.

Lemma pow10_pos (n : nat) : 0 < inject_Z (10 ^ Z.of_nat n).
Proof.
  change 0 with (inject_Z 0). rewrite <- Zlt_Qlt.
  apply Z.pow_pos_nonneg; lia.
Qed.

Lemma round_ge (x : Q) (n : nat) (k : Z) :
  inject_Z k <= x * inject_Z (10 ^ Z.of_nat n) ->
  inject_Z k / inject_Z (10 ^ Z.of_nat n) <= round x n.
Proof.
  intros H. unfold round. cbv zeta.
  apply round_half_even_ge in H. rewrite Zle_Qle in H.
  pose proof (pow10_pos n) as Hp.
  apply Qle_shift_div_l; [exact Hp |].
  field_simplify (inject_Z k / inject_Z (10 ^ Z.of_nat n)
                  * inject_Z (10 ^ Z.of_nat n)); [| lra].
  lra.
Qed.

Lemma round_le (x : Q) (n : nat) (k : Z) :
  x * inject_Z (10 ^ Z.of_nat n) <= inject_Z k ->
  round x n <= inject_Z k / inject_Z (10 ^ Z.of_nat n).
Proof.
  intros H. unfold round. cbv zeta.
  apply round_half_even_le in H. rewrite Zle_Qle in H.
  pose proof (pow10_pos n) as Hp.
  apply Qle_shift_div_r; [exact Hp |].
  field_simplify (inject_Z k / inject_Z (10 ^ Z.of_nat n)
                  * inject_Z (10 ^ Z.of_nat n)); [| lra].
  lra.
Qed.

(** ** get_trading_signal *)

Example get_trading_signal_cross_up :
  get_trading_signal 3 2 1 1 = "STRONG_BUY".
Proof. reflexivity. Qed.

Example get_trading_signal_equal_is_sell :
  get_trading_signal 2 2 2 2 = "SELL".
Proof. reflexivity. Qed.

Lemma get_trading_signal_cases (e9 e21 p9 p21 : Q) :
  get_trading_signal e9 e21 p9 p21 =
    match Qgtb e9 e21, Qgtb p9 p21 with
    | true, false => "STRONG_BUY"
    | false, true => "STRONG_SELL"
    | true, true => "BUY"
    | false, false => "SELL"
    end.
Proof.
  unfold get_trading_signal.
  destruct (Qgtb e9 e21), (Qgtb p9 p21); reflexivity.
Qed.

(** C1: [get_trading_signal] returns STRONG_BUY exactly when
    [ema9 > ema21] and [prev_ema9 <= prev_ema21], STRONG_SELL exactly when
    [ema9 <= ema21] and [prev_ema9 > prev_ema21]; in the remaining cases it
    returns BUY exactly when [ema9 > ema21] and SELL exactly when
    [ema9 <= ema21], so equal EMAs classify as SELL. *)
Theorem get_trading_signal_spec (e9 e21 p9 p21 : Q) :
  (get_trading_signal e9 e21 p9 p21 = "STRONG_BUY" <->
     e21 < e9 /\ p9 <= p21) /\
  (get_trading_signal e9 e21 p9 p21 = "STRONG_SELL" <->
     e9 <= e21 /\ p21 < p9) /\
  (get_trading_signal e9 e21 p9 p21 = "BUY" <->
     e21 < e9 /\ ~ p9 <= p21) /\
  (get_trading_signal e9 e21 p9 p21 = "SELL" <->
     e9 <= e21 /\ ~ p21 < p9).
Proof.
  rewrite get_trading_signal_cases.
  assert (Hn1 : ~ p9 <= p21 <-> p21 < p9).
  { split; [apply Qnot_le_lt | intros H1 H2; lra]. }
  assert (Hn2 : ~ p21 < p9 <-> p9 <= p21).
  { split; [apply Qnot_lt_le | intros H1 H2; lra]. }
  rewrite Hn1, Hn2.
  rewrite <- !Qgtb_true_iff, <- !Qgtb_false_iff.
  destruct (Qgtb e9 e21), (Qgtb p9 p21);
    repeat split; intros; try discriminate; try tauto;
    match goal with H : _ /\ _ |- _ => destruct H; discriminate end.
Qed.

(** ** Mock market data *)

Section MockDataProperties.

Context {rng : Type} (random : rng -> Q * rng).

Lemma mock_coin_symbol (sym : string) (g : rng) :
  symbol (fst (mock_coin random sym g)) = sym.
Proof.
  unfold mock_coin, uniform.
  repeat match goal with |- context [random ?x] => destruct (random x) end.
  reflexivity.
Qed.

Lemma mock_coin_signal (sym : string) (g : rng) :
  signal (fst (mock_coin random sym g)) = Some "BUY" \/
  signal (fst (mock_coin random sym g)) = Some "SELL".
Proof.
  unfold mock_coin, uniform.
  repeat match goal with |- context [random ?x] => destruct (random x) end.
  cbn [fst signal].
  match goal with |- context [Qgtb ?a ?b] => destruct (Qgtb a b) end;
    [now left | now right].
Qed.

Lemma mock_coins_loop_symbols (symbols : list string) :
  forall (coins : list CoinData) (g : rng),
    map symbol (fst (mock_coins_loop random symbols coins g)) =
    (map symbol coins ++ symbols)%list.
Proof.
  induction symbols as [| sym rest IH]; intros coins g; cbn [mock_coins_loop].
  - now rewrite app_nil_r.
  - pose proof (mock_coin_symbol sym g) as Hs.
    destruct (mock_coin random sym g) as [c g'].
    rewrite IH, map_app, <- app_assoc. cbn in Hs |- *. now rewrite Hs.
Qed.

Lemma mock_coins_loop_Forall (P : CoinData -> Prop) :
  (forall sym g, P (fst (mock_coin random sym g))) ->
  forall (symbols : list string) (coins : list CoinData) (g : rng),
    Forall P coins ->
    Forall P (fst (mock_coins_loop random symbols coins g)).
Proof.
  intros HP symbols.
  induction symbols as [| sym rest IH]; intros coins g Hc; cbn [mock_coins_loop].
  - exact Hc.
  - pose proof (HP sym g) as Hs.
    destruct (mock_coin random sym g) as [c g'].
    apply IH. apply Forall_app. split; [exact Hc | now constructor].
Qed.

(** C7: whatever the state of the random source, the records of a snapshot
    carry the symbols of [MOCK_COINS], in the order of [MOCK_COINS]. *)
Theorem get_mock_coin_data_order (g : rng) :
  map symbol (fst (get_mock_coin_data random g)) = MOCK_COINS.
Proof.
  unfold get_mock_coin_data. now rewrite mock_coins_loop_symbols.
Qed.

Lemma mock_coin_signal_source (sym : string) (g : rng) :
  exists e9 e21 : Q,
    ema9 (fst (mock_coin random sym g)) = Some (round e9 6) /\
    ema21 (fst (mock_coin random sym g)) = Some (round e21 6) /\
    signal (fst (mock_coin random sym g)) =
      Some (if Qgtb e9 e21 then "BUY" else "SELL").
Proof.
  unfold mock_coin, uniform.
  repeat match goal with |- context [random ?x] => destruct (random x) end.
  cbn [fst signal ema9 ema21].
  eexists. eexists. repeat split; reflexivity.
Qed.

(** C9: every record of [get_mock_coin_data] has the signal BUY or SELL,
    so no STRONG_BUY and no STRONG_SELL occurs in a snapshot; the signal
    is the comparison of the record's own EMA pair, before rounding. *)
Theorem get_mock_coin_data_signal (g : rng) :
  Forall (fun c => signal c = Some "BUY" \/ signal c = Some "SELL")
         (fst (get_mock_coin_data random g)) /\
  Forall (fun c => signal c <> Some "STRONG_BUY" /\
                   signal c <> Some "STRONG_SELL")
         (fst (get_mock_coin_data random g)) /\
  Forall (fun c => exists e9 e21 : Q,
                     ema9 c = Some (round e9 6) /\
                     ema21 c = Some (round e21 6) /\
                     signal c = Some (if Qgtb e9 e21 then "BUY" else "SELL"))
         (fst (get_mock_coin_data random g)).
Proof.
  repeat split; unfold get_mock_coin_data; apply mock_coins_loop_Forall;
    try apply Forall_nil; intros sym g0;
    try apply mock_coin_signal_source;
    destruct (mock_coin_signal sym g0) as [-> | ->];
    try (now left); try (now right); split; discriminate.
Qed.

Hypothesis random_unit : unit_interval random.

Lemma uniform_bounds (a b : Q) (g : rng) :
  a <= b ->
  a <= fst (uniform random a b g) /\ fst (uniform random a b g) <= b.
Proof.
  intros Hab. unfold uniform.
  destruct (random_unit g) as [H0 H1].
  destruct (random g) as [u g']. cbn [fst] in *.
  assert (0 <= (b - a) * u) by (apply Qmult_le_0_compat; lra).
  assert (0 <= (b - a) * (1 - u)) by (apply Qmult_le_0_compat; lra).
  split; lra.
Qed.

Lemma mock_coin_ranges (sym : string) (g : rng) :
  let c := fst (mock_coin random sym g) in
  0 < price c /\ (-15 <= change_24h c /\ change_24h c <= 15) /\
  0 < volume_24h c.
Proof.
  unfold mock_coin.
  pose proof (uniform_bounds (1 # 10) 50000 g) as Hp.
  destruct (uniform random (1 # 10) 50000 g) as [base_price g1].
  pose proof (uniform_bounds (-15) 15 g1) as Hc.
  destruct (uniform random (-15) 15 g1) as [change g2].
  pose proof (uniform_bounds 1000000 100000000 g2) as Hv.
  destruct (uniform random 1000000 100000000 g2) as [volume g3].
  destruct (uniform random (98 # 100) (102 # 100) g3) as [f9 g4].
  destruct (uniform random (97 # 100) (103 # 100) g4) as [f21 g5].
  cbn [fst price change_24h volume_24h] in *.
  destruct Hp as [Hp _]; [lra |].
  destruct Hc as [Hc1 Hc2]; [lra |].
  destruct Hv as [Hv _]; [lra |].
  repeat split.
  - apply Qlt_le_trans with (inject_Z 100000 / inject_Z (10 ^ Z.of_nat 6)).
    + reflexivity.
    + apply round_ge. change (inject_Z (10 ^ Z.of_nat 6)) with 1000000.
      change (inject_Z 100000) with 100000. lra.
  - apply Qle_trans with (inject_Z (-1500) / inject_Z (10 ^ Z.of_nat 2)).
    + unfold Qle; cbn; lia.
    + apply round_ge. change (inject_Z (10 ^ Z.of_nat 2)) with 100.
      change (inject_Z (-1500)) with (-1500). lra.
  - apply Qle_trans with (inject_Z 1500 / inject_Z (10 ^ Z.of_nat 2)).
    + apply round_le. change (inject_Z (10 ^ Z.of_nat 2)) with 100.
      change (inject_Z 1500) with 1500. lra.
    + unfold Qle; cbn; lia.
  - apply Qlt_le_trans with (inject_Z 100000000 / inject_Z (10 ^ Z.of_nat 2)).
    + reflexivity.
    + apply round_ge. change (inject_Z (10 ^ Z.of_nat 2)) with 100.
      change (inject_Z 100000000) with 100000000. lra.
Qed.

(** C8: with [random.random()] in the unit interval, every record of the
    synthetic feed has a strictly positive price, a 24h change between
    -15 and 15, and a strictly positive 24h volume. *)
Theorem get_mock_coin_data_ranges (g : rng) :
  Forall (fun c => 0 < price c /\
                   (-15 <= change_24h c /\ change_24h c <= 15) /\
                   0 < volume_24h c)
         (fst (get_mock_coin_data random g)).
Proof.
  unfold get_mock_coin_data. apply mock_coins_loop_Forall.
  - intros sym g0. apply (mock_coin_ranges sym g0).
  - apply Forall_nil.
Qed.

End MockDataProperties.

Lemma lcg_random_unit : unit_interval lcg_random.
Proof.
  intros x. unfold lcg_random. cbn [fst].
  pose proof (Z.mod_pos_bound (1103515245 * x + 12345) 2147483648
                ltac:(lia)) as [H0 H1].
  unfold Qle, Qlt. cbn [Qnum Qden]. lia.
Qed.

(** C8 at the reproducible source, seed 42. *)
Lemma get_mock_coin_data_ranges_witness :
  unit_interval lcg_random /\
  Forall (fun c => 0 < price c /\
                   (-15 <= change_24h c /\ change_24h c <= 15) /\
                   0 < volume_24h c)
         (fst (get_mock_coin_data lcg_random 42%Z)).
Proof.
  split.
  - exact lcg_random_unit.
  - apply (get_mock_coin_data_ranges lcg_random lcg_random_unit 42%Z).
Defined.

(** ** calculate_ema *)

Lemma ewma_loop_length (f nw : Q) (vals : list Q) :
  forall avg ow, List.length (ewma_loop f nw avg ow vals) = List.length vals.
Proof.
  induction vals as [| cur rest IH]; intros avg ow; cbn [ewma_loop List.length].
  - reflexivity.
  - now rewrite IH.
Qed.

Lemma ewma_length (vals : list Q) (com : Q) :
  List.length (ewma vals com) = List.length vals.
Proof.
  unfold ewma. destruct vals as [| v0 rest]; cbn [List.length].
  - reflexivity.
  - now rewrite ewma_loop_length.
Qed.

Lemma calculate_ema_short (prices : list Q) (period : Z) :
  (Z.of_nat (List.length prices) < period)%Z ->
  calculate_ema prices period = Ok (repeat 0 (List.length prices)).
Proof.
  intros H. unfold calculate_ema.
  apply Z.ltb_lt in H. now rewrite H.
Qed.

Lemma calculate_ema_long (prices : list Q) (period : Z) :
  (1 <= period <= Z.of_nat (List.length prices))%Z ->
  calculate_ema prices period = Ok (ewma prices ((inject_Z period - 1) / 2)).
Proof.
  intros [H1 H2]. unfold calculate_ema, ewm_mean, get_center_of_mass.
  destruct (Z.ltb_spec (Z.of_nat (List.length prices)) period); [lia |].
  destruct (Z.ltb_spec period 1); [lia | reflexivity].
Qed.

Lemma calculate_ema_bad_period (prices : list Q) (period : Z) :
  (period < 1)%Z ->
  calculate_ema prices period =
    Err (ValueError "span must satisfy: span >= 1").
Proof.
  intros H. unfold calculate_ema, ewm_mean, get_center_of_mass.
  destruct (Z.ltb_spec (Z.of_nat (List.length prices)) period); [lia |].
  destruct (Z.ltb_spec period 1); [reflexivity | lia].
Qed.

Lemma calculate_ema_returns (prices : list Q) (period : Z) :
  (1 <= period)%Z ->
  calculate_ema prices period =
    Ok (if (Z.of_nat (List.length prices) <? period)%Z
        then repeat 0 (List.length prices)
        else ewma prices ((inject_Z period - 1) / 2)).
Proof.
  intros Hp.
  destruct (Z.ltb_spec (Z.of_nat (List.length prices)) period) as [Hs | Hl].
  - now apply calculate_ema_short.
  - apply calculate_ema_long. lia.
Qed.

(** C10, counterexample: with period 0 the call raises instead of
    returning a list as long as its input. *)
Lemma calculate_ema_period_zero_raises :
  ~ exists out : list Q,
      calculate_ema [1] 0 = Ok out /\ List.length out = List.length [1].
Proof.
  intros [out [H _]]. discriminate H.
Qed.

(** C10, amended: for every period of at least 1, [calculate_ema] returns a
    list as long as its input, and a list of zeros when the input is
    shorter than the period. *)
Theorem calculate_ema_length (prices : list Q) (period : Z) :
  (1 <= period)%Z ->
  exists out : list Q,
    calculate_ema prices period = Ok out /\
    List.length out = List.length prices /\
    ((Z.of_nat (List.length prices) < period)%Z ->
     out = repeat 0 (List.length prices)).
Proof.
  intros Hp.
  destruct (Z.lt_ge_cases (Z.of_nat (List.length prices)) period) as [Hs | Hl].
  - exists (repeat 0 (List.length prices)).
    split; [now apply calculate_ema_short |].
    split; [apply repeat_length | reflexivity].
  - exists (ewma prices ((inject_Z period - 1) / 2)).
    split; [apply calculate_ema_long; lia |].
    split; [apply ewma_length | lia].
Qed.

Lemma calculate_ema_length_witness :
  (1 <= 9)%Z /\
  exists out : list Q,
    calculate_ema [100; 102] 9 = Ok out /\
    List.length out = List.length [100; 102] /\
    ((Z.of_nat (List.length [100; 102]) < 9)%Z ->
     out = repeat 0 (List.length [100; 102])).
Proof.
  split; [lia | apply (calculate_ema_length [100; 102] 9); lia].
Defined.

(** C4, counterexample: a negative price and a zero price are accepted. *)
Lemma calculate_ema_accepts_nonpositive :
  -5 <= 0 /\ raises (calculate_ema [-5; 0] 1) = false.
Proof.
  split; [lra | reflexivity].
Qed.

(** C4, amended: [calculate_ema] never inspects the prices for validity;
    it raises exactly when the period is below 1, then with pandas'
    [ValueError], and an [InvalidInput] rejection does not exist.  The
    function is pure, so there is no EMA state a call could change. *)
Theorem calculate_ema_no_price_validation (prices : list Q) (period : Z) :
  raises (calculate_ema prices period) = (period <? 1)%Z /\
  forall e : exn,
    calculate_ema prices period = Err e ->
    e = ValueError "span must satisfy: span >= 1".
Proof.
  destruct (Z.ltb_spec period 1) as [Hb | Hg].
  - rewrite calculate_ema_bad_period by exact Hb.
    split; [reflexivity | intros e H; now inversion H].
  - rewrite calculate_ema_returns by exact Hg.
    split; [reflexivity | intros e H; discriminate H].
Qed.

(** C2, counterexample: the single price 100 gives the EMA 0 at both
    spans, not 100. *)
Lemma calculate_ema_first_price_not_seeded :
  calculate_ema [100] 9 = Ok [0] /\
  calculate_ema [100] 21 = Ok [0] /\
  ~ 0 == 100.
Proof.
  repeat split; try reflexivity. intros H; discriminate H.
Qed.

(** C2, amended: on a history of one price [p], [calculate_ema] returns
    [p] only for period 1; for every longer period, among them the fast
    span 9 and the slow span 21, the result is the single value 0. *)
Theorem calculate_ema_single_price (p : Q) (period : Z) :
  calculate_ema [p] 9 = Ok [0] /\
  calculate_ema [p] 21 = Ok [0] /\
  calculate_ema [p] period =
    if (1 <? period)%Z then Ok [0]
    else if (period <? 1)%Z then
      Err (ValueError "span must satisfy: span >= 1")
    else Ok [p].
Proof.
  repeat split; try reflexivity.
  unfold calculate_ema, ewm_mean, get_center_of_mass. cbn [List.length].
  change (Z.of_nat 1) with 1%Z.
  destruct (1 <? period)%Z; [reflexivity |].
  destruct (period <? 1)%Z; reflexivity.
Qed.

(** Seeding in general: when the history is at least as long as the
    period, the first EMA value is the first price. *)
Lemma calculate_ema_seed (p : Q) (rest : list Q) (period : Z) :
  (1 <= period <= Z.of_nat (List.length (p :: rest)))%Z ->
  exists tl : list Q, calculate_ema (p :: rest) period = Ok (p :: tl).
Proof.
  intros H. rewrite calculate_ema_long by exact H.
  unfold ewma. eexists. reflexivity.
Qed.

(** *** The recurrence pandas computes *)

Lemma weight_sum_ge_1 (q : Q) (k : nat) : 0 <= q -> 1 <= weight_sum q k.
Proof.
  intros Hq. induction k as [| k IH]; cbn [weight_sum].
  - lra.
  - assert (0 <= q * weight_sum q k) by (apply Qmult_le_0_compat; lra). lra.
Qed.

Lemma weight_sum_compat (q q' : Q) (k : nat) :
  q == q' -> weight_sum q k == weight_sum q' k.
Proof.
  intros Hq. induction k as [| k IH]; cbn [weight_sum].
  - reflexivity.
  - now rewrite IH, Hq.
Qed.

Lemma decay_denominator (q : Q) (k : nat) :
  0 <= q -> 0 < 1 + q * weight_sum q k.
Proof.
  intros Hq. pose proof (weight_sum_ge_1 q k Hq).
  assert (0 <= q * weight_sum q k) by (apply Qmult_le_0_compat; lra). lra.
Qed.

Lemma ewma_alpha (period : Z) :
  (1 <= period)%Z ->
  1 / (1 + (inject_Z period - 1) / 2) == smoothing period /\
  0 <= 1 - smoothing period.
Proof.
  intros Hp. unfold smoothing.
  assert (H1 : 1 <= inject_Z period).
  { change 1 with (inject_Z 1). now rewrite <- Zle_Qle. }
  split.
  - field. lra.
  - assert (H2 : 2 / (inject_Z period + 1) <= 1).
    { apply Qle_shift_div_r; lra. }
    lra.
Qed.

Lemma ewma_loop_recurrence (f : Q) (Hf : 0 <= f) (vals : list Q) :
  forall (avg ow : Q) (m j : nat) (e1 e2 p2 : Q),
    ow == weight_sum f m ->
    nth_error (avg :: ewma_loop f 1 avg ow vals) j = Some e1 ->
    nth_error (ewma_loop f 1 avg ow vals) j = Some e2 ->
    nth_error vals j = Some p2 ->
    e2 == (p2 + f * weight_sum f (m + j) * e1)
          / (1 + f * weight_sum f (m + j)).
Proof.
  induction vals as [| cur rest IH]; intros avg ow m j e1 e2 p2 Hw H1 H2 H3.
  - destruct j; discriminate H3.
  - destruct j as [| j'].
    + cbn [ewma_loop nth_error] in H1, H2, H3.
      injection H1 as <-. injection H3 as <-. injection H2 as <-.
      rewrite Nat.add_0_r.
      pose proof (decay_denominator f m Hf) as Hd.
      destruct (Qeq_bool avg cur) eqn:E.
      * apply Qeq_bool_iff in E. rewrite <- E. field. repeat split; lra.
      * rewrite Hw. field. repeat split; lra.
    + cbn [ewma_loop nth_error] in H1, H2, H3.
      rewrite Nat.add_succ_r, <- Nat.add_succ_l.
      eapply IH; [| exact H1 | exact H2 | exact H3].
      cbn [weight_sum]. rewrite Hw. ring.
Qed.

Lemma firstn_succ_nth (l : list Q) :
  forall (n : nat) (x : Q),
    nth_error l n = Some x -> firstn (S n) l = (firstn n l ++ [x])%list.
Proof.
  induction l as [| y l IH]; intros n x H.
  - destruct n; discriminate H.
  - destruct n as [| n].
    + injection H as <-. reflexivity.
    + cbn [nth_error] in H. cbn [firstn app]. f_equal.
      rewrite <- (IH n x H). reflexivity.
Qed.

(** The loop computes what pandas documents for [adjust=True]: the value at
    position [k] is the mean of the observations up to [k], the one [i]
    places back weighted by [(1-alpha)^i]. *)
Lemma ewma_weighted_mean (vals : list Q) (com : Q) :
  let f := 1 - 1 / (1 + com) in
  0 <= f ->
  forall (k : nat) (y : Q),
    nth_error (ewma vals com) k = Some y ->
    y * weight_sum f k == decayed_sum f (rev (firstn (S k) vals)).
Proof.
  intros f Hf k. induction k as [| k IH]; intros y Hy.
  - unfold ewma in Hy. destruct vals as [| v0 rest]; [discriminate Hy |].
    injection Hy as <-. cbn. ring.
  - assert (Hlen : (S k < List.length vals)%nat).
    { rewrite <- (ewma_length vals com). apply nth_error_Some. congruence. }
    destruct (nth_error (ewma vals com) k) as [y' |] eqn:Hy'.
    2:{ apply nth_error_None in Hy'. rewrite ewma_length in Hy'. lia. }
    destruct (nth_error vals (S k)) as [p2 |] eqn:Hp.
    2:{ apply nth_error_None in Hp. lia. }
    specialize (IH y' eq_refl).
    rewrite (firstn_succ_nth vals (S k) p2 Hp), rev_app_distr.
    cbn [rev app decayed_sum weight_sum]. rewrite <- IH.
    unfold ewma in Hy, Hy'. fold f in Hy, Hy'.
    destruct vals as [| v0 rest]; [discriminate Hp |].
    cbn [nth_error] in Hy, Hp.
    pose proof (ewma_loop_recurrence f Hf rest v0 1 0 k y' y p2
                  ltac:(reflexivity) Hy' Hy Hp) as Hr.
    cbn [Nat.add] in Hr. rewrite Hr.
    pose proof (decay_denominator f k Hf) as Hd.
    field. lra.
Qed.

Example calculate_ema_span_3 :
  exists out : list Q,
    calculate_ema [100; 102; 101; 105; 98] 3 = Ok out /\
    Forall2 Qeq out [100; 304 # 3; 708 # 7; 516 # 5; 3116 # 31].
Proof.
  eexists. split; [reflexivity |].
  repeat constructor; reflexivity.
Qed.

(** C3, counterexample: at span 2 the prices 1, 2 give the EMA values 1 and
    7/4, while the standard recurrence asks for 5/3; taking for the
    earlier EMA the value computed on the history [[1]] alone, which is 0,
    it asks for 4/3. *)
Lemma calculate_ema_not_standard_recurrence :
  exists e1 e2 : Q,
    calculate_ema [1; 2] 2 = Ok [e1; e2] /\
    ~ e2 == smoothing 2 * 2 + (1 - smoothing 2) * e1 /\
    calculate_ema [1] 2 = Ok [0] /\
    ~ e2 == smoothing 2 * 2 + (1 - smoothing 2) * 0.
Proof.
  exists 1, (21 # 12). split; [reflexivity |].
  split; [intros H; discriminate H |].
  split; [reflexivity | intros H; discriminate H].
Qed.

(** C3, amended: on a history with at least [period] prices
    ([period >= 1]), consecutive EMA values obey pandas' bias-adjusted
    recurrence [ema2 = (p2 + (1-a) W ema1) / (1 + (1-a) W)], where
    [a = 2/(period+1)] and [W = 1 + (1-a) + ... + (1-a)^k] is the weight
    accumulated up to the earlier of the two prices. *)
Theorem calculate_ema_recurrence (prices out : list Q) (period : Z)
    (k : nat) (e1 e2 p2 : Q) :
  (1 <= period <= Z.of_nat (List.length prices))%Z ->
  calculate_ema prices period = Ok out ->
  nth_error out k = Some e1 ->
  nth_error out (S k) = Some e2 ->
  nth_error prices (S k) = Some p2 ->
  e2 == (p2 + (1 - smoothing period)
              * weight_sum (1 - smoothing period) k * e1)
        / (1 + (1 - smoothing period) * weight_sum (1 - smoothing period) k).
Proof.
  intros Hp Hc H1 H2 H3.
  rewrite calculate_ema_long in Hc by exact Hp. injection Hc as <-.
  destruct (ewma_alpha period) as [Ha Hf]; [lia |].
  unfold ewma in H1, H2. destruct prices as [| v0 rest]; [discriminate H3 |].
  cbn [nth_error] in H2, H3.
  set (f := 1 - 1 / (1 + (inject_Z period - 1) / 2)) in *.
  assert (Ef : f == 1 - smoothing period) by (unfold f; now rewrite Ha).
  assert (Hf' : 0 <= f) by (rewrite Ef; exact Hf).
  pose proof (ewma_loop_recurrence f Hf' rest v0 1 0 k e1 e2 p2
                ltac:(reflexivity) H1 H2 H3) as Hr.
  cbn [Nat.add] in Hr.
  rewrite Hr, (weight_sum_compat f (1 - smoothing period) k Ef), Ef.
  reflexivity.
Qed.

Lemma calculate_ema_recurrence_witness :
  (1 <= 2 <= Z.of_nat (List.length [1; 2]))%Z /\
  calculate_ema [1; 2] 2 = Ok [1; 21 # 12] /\
  (21 # 12) == (2 + (1 - smoothing 2) * weight_sum (1 - smoothing 2) 0 * 1)
               / (1 + (1 - smoothing 2) * weight_sum (1 - smoothing 2) 0).
Proof.
  split; [cbn; lia |]. split; [reflexivity |].
  apply (calculate_ema_recurrence [1; 2] [1; 21 # 12] 2 0 1 (21 # 12) 2);
    [cbn; lia | reflexivity | reflexivity | reflexivity | reflexivity].
Defined.

(** ** ConnectionManager *)

Lemma send_attempts_app (a b : list event) :
  send_attempts (a ++ b) = (send_attempts a ++ send_attempts b)%list.
Proof.
  induction a as [| ev a IH]; cbn [send_attempts app].
  - reflexivity.
  - destruct (send_attempt ev); now rewrite IH.
Qed.

Lemma list_remove_notin (x : nat) (l : list nat) :
  ~ In x l -> list_remove x l = l.
Proof.
  induction l as [| y l IH]; intros H; cbn [list_remove].
  - reflexivity.
  - destruct (Nat.eqb_spec x y) as [-> | NE].
    + exfalso. apply H. now left.
    + f_equal. apply IH. intros Hin. apply H. now right.
Qed.

Lemma list_remove_app_last (x : nat) (l : list nat) :
  ~ In x l -> list_remove x (l ++ [x]) = l.
Proof.
  induction l as [| y l IH]; intros H; cbn [list_remove app].
  - now rewrite Nat.eqb_refl.
  - destruct (Nat.eqb_spec x y) as [-> | NE].
    + exfalso. apply H. now left.
    + f_equal. apply IH. intros Hin. apply H. now right.
Qed.

Section ServerProperties.

Context {rng : Type} (random : rng -> Q * rng).
Context (net : list event -> WebSocket -> option exn).
Context (json_dumps : list CoinData -> string).

(** One guarded send of [broadcast]: whatever the transport does, the
    iteration ends normally, having recorded one attempt. *)
Lemma guarded_send (message : string) (connection : WebSocket)
    (w : world rng) :
  exists ev : event,
    try_except (send_text net connection message) (fun _ => ret tt) w =
      (Ok tt, mkWorld (manager w) (trace w ++ [ev]) (gen w)) /\
    send_attempt ev = Some (connection, message).
Proof.
  unfold try_except, send_text.
  destruct (net (trace w) connection) as [e |].
  - exists (SendFailed connection message e). split; reflexivity.
  - exists (Sent connection message). split; reflexivity.
Qed.

Context (others : list event -> list WebSocket -> list WebSocket).

Lemma broadcast_step_quiet (message : string) (connection : WebSocket)
    (l : list WebSocket) (tr : list event) (g : rng) :
  quiet others ->
  exists ev : event,
    bind (try_except (send_text net connection message) (fun _ => ret tt))
         (fun _ => yield_to_others others)
         (mkWorld (mkManager l) tr g) =
      (Ok tt, mkWorld (mkManager l) (tr ++ [ev]) g) /\
    send_attempt ev = Some (connection, message).
Proof.
  intros Hq.
  destruct (guarded_send message connection (mkWorld (mkManager l) tr g))
    as [ev [Hs Ha]].
  exists ev. split; [| exact Ha].
  unfold bind. rewrite Hs.
  unfold yield_to_others, set_connections.
  cbn [manager trace gen active_connections]. now rewrite Hq.
Qed.

Lemma broadcast_from_quiet (message : string) (rest : list WebSocket) :
  quiet others ->
  forall (seen : list WebSocket) (tr : list event) (g : rng) (fuel : nat),
    (List.length rest < fuel)%nat ->
    exists evs : list event,
      broadcast_from net others fuel (List.length seen) message
        (mkWorld (mkManager (seen ++ rest)) tr g) =
        (Ok true, mkWorld (mkManager (seen ++ rest)) (tr ++ evs) g) /\
      send_attempts evs = map (fun c => (c, message)) rest.
Proof.
  intros Hq. induction rest as [| c rest IH]; intros seen tr g fuel Hfuel;
    (destruct fuel as [| fuel]; [cbn [List.length] in Hfuel; lia |]);
    cbn [broadcast_from]; unfold bind at 1, get_connections;
    cbn [manager active_connections].
  - rewrite app_nil_r.
    rewrite (proj2 (nth_error_None seen (List.length seen)) (Nat.le_refl _)).
    exists []. now rewrite app_nil_r.
  - rewrite nth_error_app2 by lia. rewrite Nat.sub_diag. cbn [nth_error].
    destruct (broadcast_step_quiet message c (seen ++ c :: rest) tr g Hq)
      as [ev [Hs Ha]].
    unfold bind in Hs |- *. 
    destruct (try_except (send_text net c message) (fun _ => ret tt)
                (mkWorld (mkManager (seen ++ c :: rest)) tr g))
      as [[[] | e] w1]; [| discriminate Hs].
    rewrite Hs.
    cbn [List.length] in Hfuel.
    destruct (IH (seen ++ [c])%list (tr ++ [ev])%list g fuel ltac:(lia))
      as [evs [Hl Hm]].
    rewrite <- app_assoc in Hl. cbn [app] in Hl.
    rewrite length_app, Nat.add_1_r in Hl.
    exists (ev :: evs). rewrite Hl, <- app_assoc. split; [reflexivity |].
    cbn [send_attempts map]. now rewrite Ha, Hm.
Qed.

Lemma broadcast_from_manager_quiet (message : string) (fuel : nat) :
  quiet others ->
  forall (index : nat) (w : world rng),
    manager (snd (broadcast_from net others fuel index message w)) =
    manager w.
Proof.
  intros Hq. induction fuel as [| fuel IH]; intros index w;
    cbn [broadcast_from]; [reflexivity |].
  unfold bind at 1, get_connections.
  destruct (nth_error (active_connections (manager w)) index) as [c |];
    [| reflexivity].
  destruct w as [[l] tr g].
  destruct (broadcast_step_quiet message c l tr g Hq) as [ev [Hs _]].
  unfold bind in Hs |- *.
  destruct (try_except (send_text net c message) (fun _ => ret tt)
              (mkWorld (mkManager l) tr g)) as [[[] | e] w1];
    [| discriminate Hs].
  rewrite Hs. now rewrite IH.
Qed.

(** C5, amended: when no other task changes the registry while the
    broadcast is suspended in its sends, then whatever sends fail,
    [broadcast] ends normally, at the end of the list, and has attempted
    one send of the message to every connection of the registry, in the
    order of the registry. *)
Theorem broadcast_attempts_every_subscriber (fuel : nat) (message : string)
    (w : world rng) :
  quiet others ->
  (List.length (active_connections (manager w)) < fuel)%nat ->
  exists evs : list event,
    broadcast net others fuel message w =
      (Ok true, mkWorld (manager w) (trace w ++ evs) (gen w)) /\
    send_attempts evs =
      map (fun c => (c, message)) (active_connections (manager w)).
Proof.
  intros Hq Hfuel. destruct w as [[l] tr g]. unfold broadcast.
  cbn [manager trace gen active_connections] in *.
  apply (broadcast_from_quiet message l Hq [] tr g fuel Hfuel).
Qed.

Lemma broadcast_manager (fuel : nat) (message : string) (w : world rng) :
  quiet others -> manager (snd (broadcast net others fuel message w)) = manager w.
Proof.
  intros Hq. unfold broadcast. now apply broadcast_from_manager_quiet.
Qed.

Lemma endpoint_tick_spec (websocket : WebSocket) (w : world rng) :
  match endpoint_tick random net json_dumps websocket w with
  | (Ok _, w') => manager w' = manager w
  | (Err e, w') =>
      manager w' = manager w /\
      exists tr msg, trace w' = (tr ++ [SendFailed websocket msg e])%list
  end.
Proof.
  unfold endpoint_tick, bind, mock_coin_data, send_personal_message,
    send_text, sleep, emit, raise.
  destruct (get_mock_coin_data random (gen w)) as [coins g].
  cbn [trace manager gen].
  destruct (net (trace w) websocket) as [e |]; cbn [manager trace].
  - split; [reflexivity |]. now exists (trace w), (json_dumps coins).
  - reflexivity.
Qed.

Lemma endpoint_loop_spec (websocket : WebSocket) (n : nat) :
  forall w : world rng,
    match endpoint_loop random net json_dumps n websocket w with
    | (Ok _, w') => manager w' = manager w
    | (Err e, w') =>
        manager w' = manager w /\
        exists tr msg, trace w' = (tr ++ [SendFailed websocket msg e])%list
    end.
Proof.
  induction n as [| n IH]; intros w; cbn [endpoint_loop].
  - reflexivity.
  - unfold bind at 1.
    pose proof (endpoint_tick_spec websocket w) as Ht.
    destruct (endpoint_tick random net json_dumps websocket w) as [[[] | e] w1].
    + specialize (IH w1).
      destruct (endpoint_loop random net json_dumps n websocket w1)
        as [[[] | e] w2].
      * congruence.
      * destruct IH as [Hm Htr]. split; [congruence | exact Htr].
    + exact Ht.
Qed.

(** Every message the endpoint loop sends goes to its own socket and is the
    serialization of one snapshot of [get_mock_coin_data]. *)
Lemma endpoint_tick_sends (websocket : WebSocket) (w : world rng) :
  exists evs : list event,
    trace (snd (endpoint_tick random net json_dumps websocket w)) =
      (trace w ++ evs)%list /\
    Forall (fun a => fst a = websocket /\
                     exists g, snd a =
                       json_dumps (fst (get_mock_coin_data random g)))
           (send_attempts evs).
Proof.
  unfold endpoint_tick, bind, mock_coin_data, send_personal_message,
    send_text, sleep, emit, raise.
  assert (Hg : exists g0, fst (get_mock_coin_data random (gen w)) =
                          fst (get_mock_coin_data random g0))
    by now exists (gen w).
  destruct (get_mock_coin_data random (gen w)) as [coins g].
  cbn [fst] in Hg. destruct Hg as [g0 Hg]. cbn [trace manager gen].
  destruct (net (trace w) websocket) as [e |]; cbn [manager trace snd].
  - exists [SendFailed websocket (json_dumps coins) e]. split; [reflexivity |].
    cbn [send_attempts send_attempt]. constructor; [| constructor].
    split; [reflexivity |]. exists g0. cbn [snd]. now rewrite Hg.
  - exists [Sent websocket (json_dumps coins); Slept 5].
    rewrite <- app_assoc. split; [reflexivity |].
    cbn [send_attempts send_attempt]. constructor; [| constructor].
    split; [reflexivity |]. exists g0. cbn [snd]. now rewrite Hg.
Qed.

Lemma endpoint_loop_sends (websocket : WebSocket) (n : nat) :
  forall w : world rng,
  exists evs : list event,
    trace (snd (endpoint_loop random net json_dumps n websocket w)) =
      (trace w ++ evs)%list /\
    Forall (fun a => fst a = websocket /\
                     exists g, snd a =
                       json_dumps (fst (get_mock_coin_data random g)))
           (send_attempts evs).
Proof.
  induction n as [| n IH]; intros w; cbn [endpoint_loop].
  - exists []. split; [now rewrite app_nil_r | constructor].
  - unfold bind at 1.
    destruct (endpoint_tick_sends websocket w) as [evs1 [Ht1 Hf1]].
    destruct (endpoint_tick random net json_dumps websocket w)
      as [[[] | e] w1]; cbn [snd] in Ht1.
    + destruct (IH w1) as [evs2 [Ht2 Hf2]].
      exists (evs1 ++ evs2)%list. rewrite Ht2, Ht1, <- app_assoc.
      split; [reflexivity |].
      rewrite send_attempts_app. apply Forall_app. now split.
    + exists evs1. cbn [snd]. now split.
Qed.


Lemma disconnect_spec (websocket : WebSocket) (w : world rng) :
  disconnect websocket w =
    (Ok tt, mkWorld (mkManager (list_remove websocket
                                  (active_connections (manager w))))
                    (trace w) (gen w)).
Proof.
  unfold disconnect, bind, get_connections, set_connections, ret.
  destruct (existsb (Nat.eqb websocket) (active_connections (manager w)))
    eqn:E; [reflexivity |].
  rewrite list_remove_notin.
  - destruct w as [[l] tr g]. reflexivity.
  - intros Hin.
    assert (Ht : existsb (Nat.eqb websocket) (active_connections (manager w))
                 = true).
    { apply existsb_exists. exists websocket. split; [exact Hin |].
      apply Nat.eqb_refl. }
    congruence.
Qed.

Lemma endpoint_loop_add (websocket : WebSocket) (a b : nat) :
  forall w : world rng,
    endpoint_loop random net json_dumps (a + b) websocket w =
      match endpoint_loop random net json_dumps a websocket w with
      | (Ok _, w') => endpoint_loop random net json_dumps b websocket w'
      | (Err e, w') => (Err e, w')
      end.
Proof.
  induction a as [| a IH]; intros w; cbn [Nat.add endpoint_loop].
  - reflexivity.
  - unfold bind.
    destruct (endpoint_tick random net json_dumps websocket w)
      as [[[] | e] w1]; [apply IH | reflexivity].
Qed.

Lemma endpoint_tick_down (websocket : WebSocket) (w : world rng) (e : exn) :
  net (trace w) websocket = Some e ->
  exists (msg : string) (g : rng),
    endpoint_tick random net json_dumps websocket w =
      (Err e,
       mkWorld (manager w) (trace w ++ [SendFailed websocket msg e]) g).
Proof.
  intros Hnet.
  unfold endpoint_tick, bind, mock_coin_data, send_personal_message,
    send_text, sleep, emit, raise.
  destruct (get_mock_coin_data random (gen w)) as [coins g].
  cbn [trace manager gen]. rewrite Hnet. cbn [trace manager gen].
  now exists (json_dumps coins), g.
Qed.

(** The send that fails ends the loop: when the loop has run [k] rounds and
    the transport raises [e] on the next send, every longer run of the loop
    ends with [e], right after the failed send. *)
Lemma endpoint_loop_send_failure (websocket : WebSocket) (k n : nat)
    (w1 w2 : world rng) (e : exn) :
  endpoint_loop random net json_dumps k websocket w1 = (Ok tt, w2) ->
  net (trace w2) websocket = Some e ->
  (k < n)%nat ->
  exists (msg : string) (g : rng),
    endpoint_loop random net json_dumps n websocket w1 =
      (Err e,
       mkWorld (manager w1) (trace w2 ++ [SendFailed websocket msg e]) g).
Proof.
  intros Hk Hnet Hlt.
  pose proof (endpoint_loop_spec websocket k w1) as Hm. rewrite Hk in Hm.
  replace n with (k + S (n - S k))%nat by lia.
  rewrite endpoint_loop_add, Hk. cbn [endpoint_loop]. unfold bind at 1.
  destruct (endpoint_tick_down websocket w2 e Hnet) as [msg [g Ht]].
  rewrite Ht, Hm. now exists msg, g.
Qed.

Lemma connect_up (websocket : WebSocket) (w : world rng) :
  net (trace w) websocket = None ->
  connect net websocket w =
    (Ok tt,
     mkWorld (mkManager (active_connections (manager w) ++ [websocket]))
             (trace w ++ [Accepted websocket]) (gen w)).
Proof.
  intros Hnet.
  unfold connect, bind, accept, get_connections, set_connections, emit.
  now rewrite Hnet.
Qed.

(** C6, amended: a subscriber is removed only by [websocket_endpoint], and
    only by a send of its own that raises [WebSocketDisconnect]: when the
    handler of a socket that was not registered before has delivered [k]
    snapshots and the next send raises [WebSocketDisconnect], the handler
    returns, that failed send is the last thing it did, the socket is
    absent from the registry and the rest of the registry is as it was
    (the handler is followed on its own, with no other task acting on the
    registry meanwhile).
    [broadcast] itself removes nobody: when no other task changes the
    registry, the registry after a broadcast is the registry before it,
    failed sends or not. *)
Theorem delivery_failure_registry (k n : nat) (websocket : WebSocket)
    (w w2 : world rng) :
  ~ In websocket (active_connections (manager w)) ->
  net (trace w) websocket = None ->
  endpoint_loop random net json_dumps k websocket
    (snd (connect net websocket w)) = (Ok tt, w2) ->
  net (trace w2) websocket = Some WebSocketDisconnect ->
  (k < n)%nat ->
  (exists (w' : world rng) (msg : string),
      websocket_endpoint random net json_dumps n websocket w
        = (Returned, w') /\
      trace w' =
        (trace w2 ++ [SendFailed websocket msg WebSocketDisconnect])%list /\
      active_connections (manager w') = active_connections (manager w) /\
      ~ In websocket (active_connections (manager w'))) /\
  (quiet others ->
   forall (fuel : nat) (message : string) (w0 : world rng),
     manager (snd (broadcast net others fuel message w0)) = manager w0).
Proof.
  intros Hnew Hacc Hk Hnet Hlt.
  split; [| intros Hq fuel message w0; now apply broadcast_manager].
  unfold websocket_endpoint.
  rewrite (connect_up websocket w Hacc) in Hk |- *. cbn [snd] in Hk.
  destruct (endpoint_loop_send_failure websocket k n _ w2
              WebSocketDisconnect Hk Hnet Hlt) as [msg [g ->]].
  rewrite disconnect_spec.
  cbn [snd manager trace gen active_connections].
  eexists. exists msg. split; [reflexivity |].
  cbn [manager trace active_connections].
  rewrite list_remove_app_last by exact Hnew.
  repeat split. exact Hnew.
Qed.

End ServerProperties.

(** An example run: socket 7 joins the registry [[5]], receives one
    snapshot, and its second send raises [WebSocketDisconnect]. *)
Lemma delivery_failure_registry_witness :
  let net := flaky_net 7%nat WebSocketDisconnect 3%nat in
  let w := mkWorld (mkManager [5%nat]) [] 42%Z in
  let w2 := snd (endpoint_loop lcg_random net json_symbols 1%nat 7%nat
                   (snd (connect net 7%nat w))) in
  ~ In 7%nat (active_connections (manager w)) /\
  net (trace w) 7%nat = None /\
  net (trace w2) 7%nat = Some WebSocketDisconnect /\
  exists (w' : world Z) (msg : string),
    websocket_endpoint lcg_random net json_symbols 3%nat 7%nat w
      = (Returned, w') /\
    trace w' =
      (trace w2 ++ [SendFailed 7%nat msg WebSocketDisconnect])%list /\
    active_connections (manager w') = [5%nat] /\
    ~ In 7%nat (active_connections (manager w')).
Proof.
  intros net w w2.
  assert (Hnew : ~ In 7%nat (active_connections (manager w))).
  { cbn. intros [H | []]. discriminate H. }
  assert (Hacc : net (trace w) 7%nat = None) by reflexivity.
  assert (Hk : endpoint_loop lcg_random net json_symbols 1%nat 7%nat
                 (snd (connect net 7%nat w)) = (Ok tt, w2)).
  { vm_compute. reflexivity. }
  assert (Hnet : net (trace w2) 7%nat = Some WebSocketDisconnect).
  { vm_compute. reflexivity. }
  split; [exact Hnew |]. split; [exact Hacc |]. split; [exact Hnet |].
  destruct (delivery_failure_registry lcg_random net json_symbols no_others
              1%nat 3%nat 7%nat w w2 Hnew Hacc Hk Hnet ltac:(lia))
    as [H _].
  exact H.
Defined.

(** C6, counterexample: socket 1 fails during a broadcast to the registry
    [[1; 2]] that no other task disturbs; socket 2 is still served and
    socket 1 is still registered afterwards. *)
Lemma broadcast_keeps_failed_subscriber :
  let net := flaky_net 1%nat (RuntimeError "closed") 0%nat in
  let w' := snd (broadcast net no_others 3%nat "tick"
                   (mkWorld (mkManager [1%nat; 2%nat]) [] tt)) in
  trace w' =
    [SendFailed 1%nat "tick" (RuntimeError "closed"); Sent 2%nat "tick"] /\
  In 1%nat (active_connections (manager w')).
Proof.
  split; [reflexivity | now left].
Qed.

(** C5 at a registry of three with a failing first socket and no other
    task. *)
Lemma broadcast_attempts_every_subscriber_witness :
  let net := flaky_net 1%nat (RuntimeError "closed") 0%nat in
  let w := mkWorld (mkManager [1%nat; 2%nat; 3%nat]) [] tt in
  quiet no_others /\
  (List.length (active_connections (manager w)) < 4)%nat /\
  exists evs : list event,
    broadcast net no_others 4%nat "tick" w =
      (Ok true, mkWorld (manager w) (trace w ++ evs) (gen w)) /\
    send_attempts evs =
      map (fun c => (c, "tick")) (active_connections (manager w)).
Proof.
  intros net w.
  assert (Hq : quiet no_others) by (intros tr l; reflexivity).
  assert (Hf : (List.length (active_connections (manager w)) < 4)%nat)
    by (cbn; lia).
  split; [exact Hq |]. split; [exact Hf |].
  apply (broadcast_attempts_every_subscriber net no_others 4%nat "tick" w
           Hq Hf).
Defined.

(** C5, counterexample: the registry is [[1; 2; 3]], the send to socket 1
    fails, and during that send the handler of socket 1 disconnects it.
    The loop then goes on with the second entry of the list as it now is,
    which is socket 3: socket 2, registered before and after, is never
    attempted. *)
Lemma broadcast_skips_subscriber :
  let net := flaky_net 1%nat WebSocketDisconnect 0%nat in
  let w := mkWorld (mkManager [1%nat; 2%nat; 3%nat]) [] tt in
  let r := broadcast net handler_disconnects 10%nat "tick" w in
  fst r = Ok true /\
  send_attempts (trace (snd r)) = [(1%nat, "tick"); (3%nat, "tick")] /\
  In 2%nat (active_connections (manager w)) /\
  In 2%nat (active_connections (manager (snd r))) /\
  ~ In (2%nat, "tick") (send_attempts (trace (snd r))).
Proof.
  cbv zeta. repeat split.
  - cbn. right. now left.
  - cbn. now left.
  - cbn. intros [H | [H | []]]; discriminate H.
Qed.

(** * Part III: further properties of the same code *)

(** ** ConnectionManager: the registry *)

Lemma count_occ_list_remove_same (x : nat) (l : list nat) :
  count_occ Nat.eq_dec (list_remove x l) x = pred (count_occ Nat.eq_dec l x).
Proof.
  induction l as [| y l IH]; cbn [list_remove count_occ].
  - reflexivity.
  - destruct (Nat.eqb_spec x y) as [-> | NE].
    + destruct (Nat.eq_dec y y) as [_ | N]; [reflexivity | now elim N].
    + cbn [count_occ]. destruct (Nat.eq_dec y x) as [E | _].
      * now elim NE.
      * exact IH.
Qed.

Lemma count_occ_list_remove_other (x y : nat) (l : list nat) :
  y <> x ->
  count_occ Nat.eq_dec (list_remove x l) y = count_occ Nat.eq_dec l y.
Proof.
  intros Hxy. induction l as [| z l IH]; cbn [list_remove count_occ].
  - reflexivity.
  - destruct (Nat.eqb_spec x z) as [<- | NE].
    + destruct (Nat.eq_dec x y) as [E | _]; [now elim Hxy | reflexivity].
    + cbn [count_occ]. destruct (Nat.eq_dec z y); now rewrite IH.
Qed.

Section RegistryProperties.

Context {rng : Type} (random : rng -> Q * rng).
Context (net : list event -> WebSocket -> option exn).
Context (json_dumps : list CoinData -> string).

(** [disconnect] never raises, touches nothing but the registry, and takes
    exactly one entry of the socket out of it: none when the socket is not
    registered, one of several when it is registered more than once.  The
    entries of every other socket stay. *)
Theorem disconnect_removes_one_entry (websocket other : WebSocket)
    (w : world rng) :
  let w' := snd (disconnect websocket w) in
  fst (disconnect websocket w) = Ok tt /\
  trace w' = trace w /\ gen w' = gen w /\
  count_occ Nat.eq_dec (active_connections (manager w')) websocket =
    pred (count_occ Nat.eq_dec (active_connections (manager w)) websocket) /\
  (other <> websocket ->
   count_occ Nat.eq_dec (active_connections (manager w')) other =
     count_occ Nat.eq_dec (active_connections (manager w)) other).
Proof.
  cbv zeta. rewrite disconnect_spec. cbn [fst snd manager trace gen
                                          active_connections].
  repeat split.
  - apply count_occ_list_remove_same.
  - intros H. now apply count_occ_list_remove_other.
Qed.


End RegistryProperties.


(** ** get_mock_coin_data and the random source *)

Section DrawProperties.

Context {rng : Type} (random : rng -> Q * rng).

Lemma mock_coin_state (sym : string) (g : rng) :
  snd (mock_coin random sym g) = Nat.iter 5 (next_state random) g.
Proof.
  unfold mock_coin, uniform.
  destruct (random g) as [u1 g1] eqn:E1.
  destruct (random g1) as [u2 g2] eqn:E2.
  destruct (random g2) as [u3 g3] eqn:E3.
  destruct (random g3) as [u4 g4] eqn:E4.
  destruct (random g4) as [u5 g5] eqn:E5.
  cbn [snd]. simpl Nat.iter. unfold next_state.
  rewrite E1; cbn [snd]. rewrite E2; cbn [snd]. rewrite E3; cbn [snd].
  rewrite E4; cbn [snd]. now rewrite E5.
Qed.

Lemma mock_coins_loop_state (symbols : list string) :
  forall (coins : list CoinData) (g : rng),
    snd (mock_coins_loop random symbols coins g) =
      Nat.iter (5 * List.length symbols) (next_state random) g /\
    List.length (fst (mock_coins_loop random symbols coins g)) =
      (List.length coins + List.length symbols)%nat.
Proof.
  induction symbols as [| sym rest IH]; intros coins g;
    cbn [mock_coins_loop List.length].
  - split; [reflexivity | now rewrite Nat.add_0_r].
  - pose proof (mock_coin_state sym g) as Hs.
    destruct (mock_coin random sym g) as [c g1]. cbn [snd] in Hs.
    destruct (IH (coins ++ [c])%list g1) as [H1 H2]. split.
    + rewrite H1, Hs.
      replace (5 * S (List.length rest))%nat
        with (5 * List.length rest + 5)%nat by lia.
      now rewrite Nat.iter_add.
    + rewrite H2, length_app. cbn [List.length]. lia.
Qed.

(** One snapshot has ten records and takes exactly fifty draws from the
    random source, five per coin: the state after [get_mock_coin_data] is
    the state after fifty calls of [random.random()]. *)
Theorem get_mock_coin_data_draws (g : rng) :
  List.length (fst (get_mock_coin_data random g)) = 10%nat /\
  snd (get_mock_coin_data random g) = Nat.iter 50 (next_state random) g.
Proof.
  unfold get_mock_coin_data.
  destruct (mock_coins_loop_state MOCK_COINS [] g) as [H1 H2].
  split; [exact H2 | exact H1].
Qed.

End DrawProperties.

(** ** websocket_endpoint: how the handler ends, and what it leaves *)

Section EndpointProperties.

Context {rng : Type} (random : rng -> Q * rng).
Context (net : list event -> WebSocket -> option exn).
Context (json_dumps : list CoinData -> string).






End EndpointProperties.



(** ** calculate_ema: causality, and the period 1 *)

Lemma ewma_loop_firstn (f nw : Q) (n : nat) :
  forall (vals : list Q) (avg ow : Q),
    ewma_loop f nw avg ow (firstn n vals) =
    firstn n (ewma_loop f nw avg ow vals).
Proof.
  induction n as [| n IH]; intros vals avg ow.
  - reflexivity.
  - destruct vals as [| cur rest]; [reflexivity |].
    cbn [firstn ewma_loop]. now rewrite IH.
Qed.

Lemma ewma_firstn (n : nat) (vals : list Q) (com : Q) :
  ewma (firstn n vals) com = firstn n (ewma vals com).
Proof.
  unfold ewma. destruct n as [| n]; [now destruct vals |].
  destruct vals as [| v0 rest]; [reflexivity |].
  cbn [firstn]. now rewrite ewma_loop_firstn.
Qed.

(** The EMA looks at the past only: cutting the history after [n] prices,
    with [n] at least the period, cuts the result after [n] values and
    changes none of them. *)
Theorem calculate_ema_prefix (prices out : list Q) (period : Z) (n : nat) :
  (1 <= period <= Z.of_nat n)%Z ->
  (n <= List.length prices)%nat ->
  calculate_ema prices period = Ok out ->
  calculate_ema (firstn n prices) period = Ok (firstn n out).
Proof.
  intros Hp Hn Hc.
  rewrite calculate_ema_long in Hc by lia. injection Hc as <-.
  rewrite calculate_ema_long.
  - now rewrite ewma_firstn.
  - rewrite length_firstn, Nat.min_l by exact Hn. exact Hp.
Qed.

Lemma calculate_ema_prefix_witness :
  (1 <= 2 <= Z.of_nat 2)%Z /\
  (2 <= List.length [1; 2; 4])%nat /\
  calculate_ema [1; 2; 4] 2 = Ok [1; 21 # 12; 4644 # 1404] /\
  calculate_ema (firstn 2 [1; 2; 4]) 2 =
    Ok (firstn 2 [1; 21 # 12; 4644 # 1404]).
Proof.
  assert (Hp : (1 <= 2 <= Z.of_nat 2)%Z) by (cbn; lia).
  assert (Hn : (2 <= List.length [1; 2; 4])%nat) by (cbn; lia).
  assert (Hc : calculate_ema [1; 2; 4] 2 = Ok [1; 21 # 12; 4644 # 1404])
    by reflexivity.
  split; [exact Hp |]. split; [exact Hn |]. split; [exact Hc |].
  apply (calculate_ema_prefix [1; 2; 4] [1; 21 # 12; 4644 # 1404] 2 2 Hp Hn Hc).
Defined.

Lemma ewma_loop_no_memory (f : Q) (vals : list Q) :
  f == 0 ->
  forall avg ow : Q, Forall2 Qeq (ewma_loop f 1 avg ow vals) vals.
Proof.
  intros Hf. induction vals as [| cur rest IH]; intros avg ow;
    cbn [ewma_loop].
  - constructor.
  - constructor; [| apply IH].
    destruct (Qeq_bool avg cur) eqn:E.
    + now apply Qeq_bool_iff.
    + rewrite Hf. field.
Qed.

(** With period 1 the smoothing factor is 1 and nothing is smoothed: the
    result is the price list itself, value by value. *)
Theorem calculate_ema_period_one (prices : list Q) :
  exists out : list Q,
    calculate_ema prices 1 = Ok out /\ Forall2 Qeq out prices.
Proof.
  destruct prices as [| v0 rest].
  - exists []. split; [reflexivity | constructor].
  - rewrite calculate_ema_long by (cbn [List.length]; lia).
    eexists. split; [reflexivity |].
    unfold ewma. constructor; [reflexivity |].
    apply ewma_loop_no_memory. reflexivity.
Qed.

(** ** get_trading_signal over consecutive ticks *)

Lemma Qgtb_affine (a b x y : Q) :
  0 < a -> Qgtb (a * x + b) (a * y + b) = Qgtb x y.
Proof.
  intros Ha.
  destruct (Qgtb x y) eqn:E.
  - apply Qgtb_true_iff in E. apply Qgtb_true_iff.
    assert (0 < a * (x - y)) by (apply Qmult_lt_0_compat; lra). lra.
  - apply Qgtb_false_iff in E. apply Qgtb_false_iff.
    assert (0 <= a * (y - x)) by (apply Qmult_le_0_compat; lra). lra.
Qed.

(** The signal of the next tick, computed with the current pair as its
    previous pair, never repeats a cross: after STRONG_BUY or BUY comes BUY
    or STRONG_SELL, after STRONG_SELL or SELL comes SELL or STRONG_BUY. *)
Theorem get_trading_signal_next_tick (n9 n21 c9 c21 p9 p21 : Q) :
  ((get_trading_signal c9 c21 p9 p21 = "STRONG_BUY" \/
    get_trading_signal c9 c21 p9 p21 = "BUY") ->
   (get_trading_signal n9 n21 c9 c21 = "BUY" \/
    get_trading_signal n9 n21 c9 c21 = "STRONG_SELL")) /\
  ((get_trading_signal c9 c21 p9 p21 = "STRONG_SELL" \/
    get_trading_signal c9 c21 p9 p21 = "SELL") ->
   (get_trading_signal n9 n21 c9 c21 = "SELL" \/
    get_trading_signal n9 n21 c9 c21 = "STRONG_BUY")).
Proof.
  rewrite !get_trading_signal_cases.
  destruct (Qgtb c9 c21), (Qgtb p9 p21), (Qgtb n9 n21);
    split; intros [H | H]; try discriminate H; auto.
Qed.

(** The signal depends on the order of the EMA values only: a change of
    unit by a positive factor and a shift of all four values leave it
    unchanged. *)
Theorem get_trading_signal_affine (a b e9 e21 p9 p21 : Q) :
  0 < a ->
  get_trading_signal (a * e9 + b) (a * e21 + b) (a * p9 + b) (a * p21 + b) =
  get_trading_signal e9 e21 p9 p21.
Proof.
  intros Ha. rewrite !get_trading_signal_cases.
  now rewrite !Qgtb_affine by exact Ha.
Qed.

Lemma get_trading_signal_affine_witness :
  0 < 100 /\
  get_trading_signal (100 * 3 + 7) (100 * 2 + 7) (100 * 1 + 7) (100 * 1 + 7) =
  get_trading_signal 3 2 1 1.
Proof.
  split; [lra | apply (get_trading_signal_affine 100 7 3 2 1 1); lra].
Defined.

(** ** get_mock_coin_data: the remaining fields *)

Section MockFieldProperties.

Context {rng : Type} (random : rng -> Q * rng).
Hypothesis random_unit : unit_interval random.

Lemma mock_coin_field_ranges (sym : string) (g : rng) :
  let c := fst (mock_coin random sym g) in
  (price c <= 50000 /\ volume_24h c <= 100000000 /\
   1000000 <= volume_24h c) /\
  (exists e9 : Q, ema9 c = Some e9 /\ 98 # 1000 <= e9 /\ e9 <= 51000) /\
  (exists e21 : Q, ema21 c = Some e21 /\ 97 # 1000 <= e21 /\ e21 <= 51500).
Proof.
  unfold mock_coin.
  pose proof (uniform_bounds random random_unit (1 # 10) 50000 g) as Hp.
  destruct (uniform random (1 # 10) 50000 g) as [base g1].
  destruct (uniform random (-15) 15 g1) as [change g2].
  pose proof (uniform_bounds random random_unit 1000000 100000000 g2) as Hv.
  destruct (uniform random 1000000 100000000 g2) as [volume g3].
  pose proof (uniform_bounds random random_unit (98 # 100) (102 # 100) g3)
    as H9.
  destruct (uniform random (98 # 100) (102 # 100) g3) as [f9 g4].
  pose proof (uniform_bounds random random_unit (97 # 100) (103 # 100) g4)
    as H21.
  destruct (uniform random (97 # 100) (103 # 100) g4) as [f21 g5].
  cbn [fst price volume_24h ema9 ema21] in *.
  destruct Hp as [Hp1 Hp2]; [lra |].
  destruct Hv as [Hv1 Hv2]; [lra |].
  destruct H9 as [H91 H92]; [lra |].
  destruct H21 as [H211 H212]; [lra |].
  assert (0 <= (base - (1 # 10)) * f9) by (apply Qmult_le_0_compat; lra).
  assert (0 <= (50000 - base) * f9) by (apply Qmult_le_0_compat; lra).
  assert (0 <= (base - (1 # 10)) * f21) by (apply Qmult_le_0_compat; lra).
  assert (0 <= (50000 - base) * f21) by (apply Qmult_le_0_compat; lra).
  split; [split; [| split] | split].
  - apply Qle_trans with (inject_Z 50000000000 / inject_Z (10 ^ Z.of_nat 6)).
    + apply round_le. change (inject_Z (10 ^ Z.of_nat 6)) with 1000000.
      change (inject_Z 50000000000) with 50000000000. lra.
    + unfold Qle; cbn; lia.
  - apply Qle_trans with (inject_Z 10000000000 / inject_Z (10 ^ Z.of_nat 2)).
    + apply round_le. change (inject_Z (10 ^ Z.of_nat 2)) with 100.
      change (inject_Z 10000000000) with 10000000000. lra.
    + unfold Qle; cbn; lia.
  - apply Qle_trans with (inject_Z 100000000 / inject_Z (10 ^ Z.of_nat 2)).
    + unfold Qle; cbn; lia.
    + apply round_ge. change (inject_Z (10 ^ Z.of_nat 2)) with 100.
      change (inject_Z 100000000) with 100000000. lra.
  - eexists. split; [reflexivity |]. split.
    + apply Qle_trans with (inject_Z 98000 / inject_Z (10 ^ Z.of_nat 6)).
      * unfold Qle; cbn; lia.
      * apply round_ge. change (inject_Z (10 ^ Z.of_nat 6)) with 1000000.
        change (inject_Z 98000) with 98000. lra.
    + apply Qle_trans
        with (inject_Z 51000000000 / inject_Z (10 ^ Z.of_nat 6)).
      * apply round_le. change (inject_Z (10 ^ Z.of_nat 6)) with 1000000.
        change (inject_Z 51000000000) with 51000000000. lra.
      * unfold Qle; cbn; lia.
  - eexists. split; [reflexivity |]. split.
    + apply Qle_trans with (inject_Z 97000 / inject_Z (10 ^ Z.of_nat 6)).
      * unfold Qle; cbn; lia.
      * apply round_ge. change (inject_Z (10 ^ Z.of_nat 6)) with 1000000.
        change (inject_Z 97000) with 97000. lra.
    + apply Qle_trans
        with (inject_Z 51500000000 / inject_Z (10 ^ Z.of_nat 6)).
      * apply round_le. change (inject_Z (10 ^ Z.of_nat 6)) with 1000000.
        change (inject_Z 51500000000) with 51500000000. lra.
      * unfold Qle; cbn; lia.
Qed.

(** With [random.random()] in the unit interval, every record has both EMA
    fields set, [ema9] between 0.098 and 51000 and [ema21] between 0.097
    and 51500; its price is at most 50000 and its volume lies between
    1000000 and 100000000. *)
Theorem get_mock_coin_data_field_ranges (g : rng) :
  Forall (fun c =>
            (price c <= 50000 /\ volume_24h c <= 100000000 /\
             1000000 <= volume_24h c) /\
            (exists e9 : Q,
                ema9 c = Some e9 /\ 98 # 1000 <= e9 /\ e9 <= 51000) /\
            (exists e21 : Q,
                ema21 c = Some e21 /\ 97 # 1000 <= e21 /\ e21 <= 51500))
         (fst (get_mock_coin_data random g)).
Proof.
  unfold get_mock_coin_data. apply mock_coins_loop_Forall.
  - intros sym g0. apply (mock_coin_field_ranges sym g0).
  - apply Forall_nil.
Qed.

End MockFieldProperties.

Lemma get_mock_coin_data_field_ranges_witness :
  unit_interval lcg_random /\
  Forall (fun c =>
            (price c <= 50000 /\ volume_24h c <= 100000000 /\
             1000000 <= volume_24h c) /\
            (exists e9 : Q,
                ema9 c = Some e9 /\ 98 # 1000 <= e9 /\ e9 <= 51000) /\
            (exists e21 : Q,
                ema21 c = Some e21 /\ 97 # 1000 <= e21 /\ e21 <= 51500))
         (fst (get_mock_coin_data lcg_random 42%Z)).
Proof.
  split.
  - exact lcg_random_unit.
  - apply (get_mock_coin_data_field_ranges lcg_random lcg_random_unit 42%Z).
Defined.

(** ** Documents and collections *)

Lemma doc_get_set_same (k : string) (v : value) (d : document) :
  doc_get k (doc_set k v d) = Some v.
Proof.
  induction d as [| [k' v'] d IH]; cbn [doc_set doc_get].
  - now rewrite String.eqb_refl.
  - destruct (String.eqb k k') eqn:E; cbn [doc_get].
    + now rewrite String.eqb_refl.
    + now rewrite E.
Qed.

Lemma doc_get_set_other (k k' : string) (v : value) (d : document) :
  k' <> k -> doc_get k' (doc_set k v d) = doc_get k' d.
Proof.
  intros Hk. apply String.eqb_neq in Hk.
  induction d as [| [k0 v0] d IH]; cbn [doc_set doc_get].
  - now rewrite Hk.
  - destruct (String.eqb k k0) eqn:E; cbn [doc_get].
    + apply String.eqb_eq in E. subst k0. now rewrite Hk.
    + now rewrite IH.
Qed.

Lemma doc_get_app (k : string) (d1 d2 : document) :
  doc_get k (d1 ++ d2)%list =
    match doc_get k d1 with
    | Some v => Some v
    | None => doc_get k d2
    end.
Proof.
  induction d1 as [| [k' v'] d1 IH]; cbn [app doc_get].
  - reflexivity.
  - destruct (String.eqb k k'); [reflexivity | exact IH].
Qed.

(** [d.update(other)]: the last binding of a key in [other] wins, and a
    key that [other] does not bind keeps its value. *)
Lemma doc_get_update (k : string) (other : document) :
  forall d : document,
    doc_get k (doc_update d other) =
      match doc_get k (rev other) with
      | Some v => Some v
      | None => doc_get k d
      end.
Proof.
  unfold doc_update.
  induction other as [| [k' v'] other IH]; intros d; cbn [fold_left rev].
  - reflexivity.
  - rewrite IH, doc_get_app. cbn [fst snd doc_get].
    destruct (doc_get k (rev other)); [reflexivity |].
    destruct (String.eqb_spec k k') as [-> | NE].
    + apply doc_get_set_same.
    + now apply doc_get_set_other.
Qed.

Lemma value_match_refl (v : value) : value_match v v = true.
Proof.
  destruct v; cbn [value_match].
  - reflexivity.
  - apply Bool.eqb_reflx.
  - apply Z.eqb_refl.
  - apply Qeq_bool_refl.
  - apply String.eqb_refl.
  - apply Z.eqb_refl.
Qed.

Lemma find_one_none_iff (k : string) (q : value) (c : collection) :
  find_one k q c = None <-> existsb (doc_matches k q) c = false.
Proof.
  unfold find_one. induction c as [| d c IH]; cbn [find existsb].
  - tauto.
  - destruct (doc_matches k q d); cbn [orb]; [split; discriminate | exact IH].
Qed.

Lemma find_one_insert_new (k : string) (q : value) (d : document)
    (c : collection) :
  find_one k q c = None ->
  find_one k q (c ++ [d])%list = if doc_matches k q d then Some d else None.
Proof.
  unfold find_one.
  induction c as [| d0 c IH]; cbn [find app]; intros H.
  - reflexivity.
  - destruct (doc_matches k q d0); [discriminate | now apply IH].
Qed.

Lemma find_one_insert_old (k : string) (q : value) (d d0 : document)
    (c : collection) :
  find_one k q c = Some d0 -> find_one k q (c ++ [d])%list = Some d0.
Proof.
  unfold find_one.
  induction c as [| d1 c IH]; cbn [find app]; intros H.
  - discriminate.
  - destruct (doc_matches k q d1); [exact H | now apply IH].
Qed.

Lemma find_one_some (k : string) (q : value) (d : document) (c : collection) :
  find_one k q c = Some d -> In d c /\ doc_matches k q d = true.
Proof.
  unfold find_one. intros H. now apply find_some in H.
Qed.

(** What [find_one] sees after an update with the same filter, when the
    update keeps a matching document matching. *)
Lemma find_one_update_one (k : string) (q : value) (sets : document)
    (upsert : bool) (c : collection) :
  (forall d, doc_matches k q d = true ->
             doc_matches k q (doc_update d sets) = true) ->
  find_one k q (apply_update k q sets upsert c) =
    match find_one k q c with
    | Some d => Some (doc_update d sets)
    | None => if upsert then Some (doc_update [(k, q)] sets) else None
    end.
Proof.
  intros Hkeep. unfold apply_update.
  destruct (find_one k q c) as [d |] eqn:Hf.
  - assert (He : existsb (doc_matches k q) c = true).
    { destruct (existsb (doc_matches k q) c) eqn:E; [reflexivity |].
      apply find_one_none_iff in E. congruence. }
    rewrite He. clear He. revert Hf. unfold find_one.
    induction c as [| d0 c IH]; cbn [find update_first]; [discriminate |].
    destruct (doc_matches k q d0) eqn:E0; intros Hf.
    + injection Hf as <-. cbn [find]. now rewrite (Hkeep d0 E0).
    + cbn [find]. rewrite E0. now apply IH.
  - pose proof Hf as He. apply find_one_none_iff in He. rewrite He.
    destruct upsert; [| exact Hf].
    rewrite (find_one_insert_new k q _ c Hf).
    assert (Hm : doc_matches k q [(k, q)] = true).
    { unfold doc_matches. cbn [doc_get]. rewrite String.eqb_refl.
      apply value_match_refl. }
    now rewrite (Hkeep _ Hm).
Qed.

Lemma apply_update_absent (k : string) (q : value) (sets : document)
    (c : collection) :
  find_one k q c = None -> apply_update k q sets false c = c.
Proof.
  intros H. unfold apply_update. apply find_one_none_iff in H.
  now rewrite H.
Qed.

(** An update that does not bind the filter's key keeps documents
    matching. *)
Lemma doc_matches_update_other (k : string) (q : value) (sets d : document) :
  doc_get k (rev sets) = None ->
  doc_matches k q (doc_update d sets) = doc_matches k q d.
Proof.
  intros H. unfold doc_matches. now rewrite doc_get_update, H.
Qed.

(** ** Tokens and the current user *)

Section AuthProperties.

Context (jwt_encode : document -> string).
Context (jwt_decode : string -> outcome document).

Lemma create_access_token_default (data : document) (t : Z) :
  (0 <= t + 7 * microseconds_per_day <= datetime_max)%Z ->
  create_access_token jwt_encode data None t =
    Return (jwt_encode
              (doc_update data
                 [("exp", VTime (t + 7 * microseconds_per_day))])).
Proof.
  intros [H0 H1]. unfold create_access_token, obind, timedelta_days.
  cbn [Z.abs Z.leb Z.compare Pos.compare Pos.compare_cont].
  unfold datetime_add. cbv zeta.
  apply Z.leb_le in H0. apply Z.leb_le in H1. now rewrite H0, H1.
Qed.

(** The token carries every claim of [data] except that [exp] is set anew,
    to the time of the call plus the given lifetime; a lifetime of zero
    counts as not given, and the lifetime is then seven days.  A token is
    only made when the expiry is a representable date. *)
Theorem create_access_token_claims (data : document)
    (expires_delta : option Z) (t : Z) :
  create_access_token jwt_encode data (Some 0%Z) t =
    create_access_token jwt_encode data None t /\
  forall token : string,
    create_access_token jwt_encode data expires_delta t = Return token ->
    exists (expire : Z) (payload : document),
      token = jwt_encode payload /\
      doc_get "exp" payload = Some (VTime expire) /\
      (forall k, k <> "exp" -> doc_get k payload = doc_get k data) /\
      (0 <= expire <= datetime_max)%Z /\
      expire =
        (t + match expires_delta with
             | Some d => if (d =? 0)%Z then 7 * microseconds_per_day else d
             | None => 7 * microseconds_per_day
             end)%Z.
Proof.
  split; [reflexivity |].
  intros token. unfold create_access_token.
  set (given := match expires_delta with
                | Some d => if (d =? 0)%Z then None else Some d
                | None => None
                end).
  set (life := match expires_delta with
               | Some d => if (d =? 0)%Z then (7 * microseconds_per_day)%Z
                           else d
               | None => (7 * microseconds_per_day)%Z
               end).
  assert (Hexp : match given with
                 | Some d => datetime_add t d
                 | None => obind (timedelta_days 7)
                             (fun week => datetime_add t week)
                 end = datetime_add t life).
  { unfold given, life. destruct expires_delta as [d |]; [| reflexivity].
    destruct (d =? 0)%Z; reflexivity. }
  rewrite Hexp. unfold datetime_add, obind. cbv zeta.
  destruct ((0 <=? t + life)%Z && (t + life <=? datetime_max)%Z)%bool eqn:E;
    [| discriminate].
  apply andb_true_iff in E. destruct E as [E0 E1].
  apply Z.leb_le in E0. apply Z.leb_le in E1.
  intros H. injection H as <-.
  exists (t + life)%Z, (doc_update data [("exp", VTime (t + life))]).
  split; [reflexivity |]. split; [| split; [| split]].
  - rewrite doc_get_update. reflexivity.
  - intros k Hk. rewrite doc_get_update. cbn [rev app doc_get].
    apply String.eqb_neq in Hk. now rewrite Hk.
  - lia.
  - reflexivity.
Qed.

(** A user is returned only for a token that decodes to a payload with a
    subject, and it is the first stored user whose [user_id] matches that
    subject.  Every failure is a 401, except that an exception of the
    decoder that is not a [JWTError] passes through as it is. *)
Theorem get_current_user_sound (token : string) (db : database) :
  (forall user : document,
      get_current_user jwt_decode token db = Return user ->
      exists (payload : document) (sub : value),
        jwt_decode token = Return payload /\
        doc_get "sub" payload = Some sub /\ sub <> VNone /\
        find_one "user_id" sub (users_collection db) = Some user /\
        In user (users_collection db) /\
        doc_matches "user_id" sub user = true) /\
  (forall e : http_exn,
      get_current_user jwt_decode token db = Raise e ->
      e = HTTPException 401 "Invalid token" \/
      e = HTTPException 401 "User not found" \/
      (jwt_decode token = Raise e /\ e <> JWTError)).
Proof.
  unfold get_current_user, doc_get_default.
  destruct (jwt_decode token) as [payload | e0].
  - destruct (doc_get "sub" payload) as [sub |] eqn:Hs.
    + split.
      * intros user H. exists payload, sub.
        destruct sub; try discriminate H;
          match type of H with
          | match find_one ?k ?q ?c with _ => _ end = _ =>
              destruct (find_one k q c) as [u |] eqn:Hf; [| discriminate H];
              injection H as <-;
              destruct (find_one_some _ _ _ _ Hf) as [Hin Hm];
              repeat split; try reflexivity; try assumption; discriminate
          end.
      * intros e H.
        destruct sub;
          try (injection H as <-; now left);
          match type of H with
          | match find_one ?k ?q ?c with _ => _ end = _ =>
              destruct (find_one k q c); [discriminate H |];
              injection H as <-; right; now left
          end.
    + split; [discriminate |]. intros e H. injection H as <-. now left.
  - split; [destruct e0; discriminate |].
    intros e H.
    destruct e0; injection H as <-;
      try (right; right; split; [reflexivity | discriminate]).
    now left.
Qed.

End AuthProperties.

(** ** register and login *)

Lemma email_keys_app (c1 c2 : collection) :
  email_keys (c1 ++ c2)%list = (email_keys c1 ++ email_keys c2)%list.
Proof.
  induction c1 as [| d c1 IH]; cbn [app email_keys].
  - reflexivity.
  - destruct (doc_get "email" d) as [[| | | | s |] |]; try exact IH.
    cbn [app]. now rewrite IH.
Qed.

Lemma find_one_email_none (e : string) (c : collection) :
  find_one "email" (VStr e) c = None -> ~ In e (email_keys c).
Proof.
  unfold find_one, doc_matches.
  induction c as [| d c IH]; cbn [find email_keys]; intros H.
  - intros [].
  - destruct (doc_get "email" d) as [[| | | | s |] |]; cbn [value_match] in H;
      try (now apply IH).
    destruct (String.eqb_spec e s) as [-> | NE]; [discriminate |].
    intros [E | Hin]; [now elim NE | now apply IH].
Qed.

Lemma find_one_email_some (e : string) (u : document) (c : collection) :
  find_one "email" (VStr e) c = Some u -> In e (email_keys c).
Proof.
  unfold find_one, doc_matches.
  induction c as [| d c IH]; cbn [find email_keys]; intros H.
  - discriminate.
  - destruct (doc_get "email" d) as [[| | | | s |] |]; cbn [value_match] in H;
      try (now apply IH).
    destruct (String.eqb_spec e s) as [-> | NE]; [now left |].
    right. now apply IH.
Qed.

Section AccountProperties.

Context (hashpw : string -> string -> outcome string).
Context (checkpw : string -> string -> outcome bool).
Context (jwt_encode : document -> string).

(** What [register] has done when it answers: the address was free, the
    password was hashed, and one user document and one subscription
    document were added, with their times as BSON keeps them. *)
Lemma register_accepted (user : UserRegister) (uuid4 salt : string)
    (t_user t_subscription t_token : Z) (db db' : database)
    (r : AuthResponse) :
  register hashpw jwt_encode user uuid4 salt t_user t_subscription t_token db
    = (Return r, db') ->
  exists hashed : string,
    find_one "email" (VStr (reg_email user)) (users_collection db) = None /\
    hashpw (reg_password user) salt = Return hashed /\
    r = mkAuthResponse (access_token r) "bearer" (VStr uuid4)
          (VStr (reg_email user)) (VStr (reg_name user)) /\
    db' =
      mkDatabase
        (users_collection db ++
         [[ ("user_id", VStr uuid4);
            ("email", VStr (reg_email user));
            ("name", VStr (reg_name user));
            ("password", VStr hashed);
            ("created_at", VTime (t_user - t_user mod 1000));
            ("is_admin", VBool false);
            ("api_key", VNone);
            ("api_secret", VNone) ]])%list
        (bot_configs_collection db)
        (subscriptions_collection db ++
         [[ ("user_id", VStr uuid4);
            ("is_active", VBool false);
            ("expires_at", VNone);
            ("created_at",
               VTime (t_subscription - t_subscription mod 1000)) ]])%list.
Proof.
  unfold register, hash_password, insert_one.
  destruct (find_one "email" (VStr (reg_email user)) (users_collection db));
    [discriminate |].
  destruct (hashpw (reg_password user) salt) as [hashed | e];
    [| discriminate].
  cbn [bson_document bson_value users_collection bot_configs_collection
       subscriptions_collection].
  destruct (create_access_token jwt_encode [("sub", VStr uuid4)] None t_token)
    as [tok | e]; [| discriminate].
  intros H. injection H as <- <-. exists hashed. repeat split.
Qed.

(** [register] keeps the e-mail addresses of the stored users distinct.
    When it answers, the address of the request is a stored address; when
    the address is stored already, it refuses with 400 and changes
    nothing. *)
Theorem register_keeps_emails_unique (user : UserRegister)
    (uuid4 salt : string) (t_user t_subscription t_token : Z)
    (db : database) :
  NoDup (email_keys (users_collection db)) ->
  NoDup (email_keys (users_collection
           (snd (register hashpw jwt_encode user uuid4 salt
                   t_user t_subscription t_token db)))) /\
  (forall r : AuthResponse,
      fst (register hashpw jwt_encode user uuid4 salt
             t_user t_subscription t_token db) = Return r ->
      In (reg_email user)
         (email_keys (users_collection
            (snd (register hashpw jwt_encode user uuid4 salt
                    t_user t_subscription t_token db))))) /\
  (forall u : document,
      find_one "email" (VStr (reg_email user)) (users_collection db)
        = Some u ->
      register hashpw jwt_encode user uuid4 salt
        t_user t_subscription t_token db =
        (Raise (HTTPException 400 "User already exists"), db) /\
      In (reg_email user) (email_keys (users_collection db))).
Proof.
  intros Hnd.
  destruct (register hashpw jwt_encode user uuid4 salt
              t_user t_subscription t_token db) as [[r | e] db'] eqn:Hreg;
    cbn [fst snd].
  - destruct (register_accepted _ _ _ _ _ _ _ _ _ Hreg)
      as [hashed [Hf [_ [_ ->]]]].
    cbn [users_collection]. rewrite email_keys_app.
    cbn [email_keys doc_get String.eqb Ascii.eqb Bool.eqb].
    pose proof (find_one_email_none _ _ Hf) as Hnot.
    split; [| split].
    + apply NoDup_app; [exact Hnd | repeat constructor; intros [] |].
      intros x Hx [<- | []]. exact (Hnot Hx).
    + intros _ _. apply in_or_app. right. now left.
    + intros u Hu. congruence.
  - revert Hreg. unfold register, hash_password, insert_one.
    destruct (find_one "email" (VStr (reg_email user)) (users_collection db))
      as [u0 |] eqn:Hf.
    + intros H. injection H as <- <-.
      split; [exact Hnd |]. split; [discriminate |].
      intros u _. split; [reflexivity |].
      now apply find_one_email_some in Hf.
    + pose proof (find_one_email_none _ _ Hf) as Hnot.
      destruct (hashpw (reg_password user) salt) as [hashed | e0].
      * cbn [bson_document bson_value users_collection
             bot_configs_collection subscriptions_collection].
        destruct (create_access_token jwt_encode [("sub", VStr uuid4)] None
                    t_token) as [tok | e1]; [discriminate |].
        intros H. injection H as <- <-. cbn [users_collection].
        rewrite email_keys_app.
        cbn [email_keys doc_get String.eqb Ascii.eqb Bool.eqb].
        split; [| split; [discriminate | discriminate]].
        apply NoDup_app; [exact Hnd | repeat constructor; intros [] |].
        intros x Hx [<- | []]. exact (Hnot Hx).
      * intros H. injection H as <- <-.
        split; [exact Hnd |]. split; discriminate.
Qed.

(** Who has registered can log in: after a successful [register], [login]
    with the same address and password succeeds, provided [checkpw]
    accepts the hash [hashpw] made, and answers with the user id, address
    and name of the registration, and with a token for that user id that
    expires after seven days. *)
Theorem register_then_login (user : UserRegister) (uuid4 salt : string)
    (t_user t_subscription t_token t_login : Z) (db db' : database)
    (r : AuthResponse) :
  (forall hashed : string,
      hashpw (reg_password user) salt = Return hashed ->
      checkpw (reg_password user) hashed = Return true) ->
  (0 <= t_login + 7 * microseconds_per_day <= datetime_max)%Z ->
  register hashpw jwt_encode user uuid4 salt t_user t_subscription t_token db
    = (Return r, db') ->
  login checkpw jwt_encode
        (mkUserLogin (reg_email user) (reg_password user)) t_login db' =
    Return (mkAuthResponse
              (jwt_encode
                 [ ("sub", VStr uuid4);
                   ("exp", VTime (t_login + 7 * microseconds_per_day)) ])
              "bearer" (auth_user_id r) (auth_email r) (auth_name r)) /\
  auth_user_id r = VStr uuid4 /\
  auth_email r = VStr (reg_email user) /\
  auth_name r = VStr (reg_name user).
Proof.
  intros Hpw Ht Hreg.
  destruct (register_accepted _ _ _ _ _ _ _ _ _ Hreg)
    as [hashed [Hf [Hh [Hr ->]]]].
  rewrite Hr. cbn [auth_user_id auth_email auth_name].
  split; [| repeat split].
  unfold login. cbn [login_email login_password users_collection].
  rewrite (find_one_insert_new _ _ _ _ Hf).
  unfold doc_matches at 1.
  cbn [doc_get String.eqb Ascii.eqb Bool.eqb value_match].
  rewrite String.eqb_refl.
  unfold doc_item, obind, verify_password.
  cbn [doc_get String.eqb Ascii.eqb Bool.eqb].
  rewrite (Hpw hashed Hh).
  rewrite (create_access_token_default jwt_encode _ t_login Ht).
  reflexivity.
Qed.

(** [login] answers an unknown address and a wrong password with the same
    401. *)
Theorem login_invalid_credentials (user : UserLogin) (t_token : Z)
    (db : database) :
  find_one "email" (VStr (login_email user)) (users_collection db) = None \/
  (exists (u : document) (hashed : string),
      find_one "email" (VStr (login_email user)) (users_collection db)
        = Some u /\
      doc_get "password" u = Some (VStr hashed) /\
      checkpw (login_password user) hashed = Return false) ->
  login checkpw jwt_encode user t_token db =
    Raise (HTTPException 401 "Invalid credentials").
Proof.
  unfold login.
  intros [-> | [u [hashed [-> [Hp Hc]]]]]; [reflexivity |].
  unfold doc_item, obind, verify_password. now rewrite Hp, Hc.
Qed.

End AccountProperties.

(** ** The bot and the subscription gate *)

Lemma start_bot_sets_keep (key : value) (utcnow : Z) (tag : string)
    (b : bool) (d : document) :
  tag <> "user_id" -> tag <> "is_active" ->
  doc_matches "user_id" key d = true ->
  doc_matches "user_id" key
    (doc_update d [("is_active", VBool b); (tag, VTime utcnow)]) = true.
Proof.
  intros Ht _ Hm. rewrite doc_matches_update_other; [exact Hm |].
  cbn [rev app doc_get]. apply not_eq_sym in Ht.
  apply String.eqb_neq in Ht. now rewrite Ht.
Qed.

(** [start_bot] succeeds only for a user whose first subscription document
    has a truthy [is_active], and then the bot configuration found for the
    user is active; when it raises, it has changed nothing.  The expiry
    date of the subscription plays no part. *)
Theorem start_bot_requires_active_subscription (current_user : document)
    (utcnow : Z) (db : database) :
  (forall (msg : string) (db' : database),
      start_bot current_user utcnow db = (Return msg, db') ->
      exists (key : value) (s c : document),
        doc_get "user_id" current_user = Some key /\
        find_one "user_id" key (subscriptions_collection db) = Some s /\
        truthy (doc_get_default "is_active" VNone s) = true /\
        find_one "user_id" key (bot_configs_collection db') = Some c /\
        doc_get "is_active" c = Some (VBool true) /\
        users_collection db' = users_collection db /\
        subscriptions_collection db' = subscriptions_collection db) /\
  (forall (e : http_exn) (db' : database),
      start_bot current_user utcnow db = (Raise e, db') ->
      db' = db /\
      (e = KeyError "user_id" \/
       e = HTTPException 403 "Active subscription required")).
Proof.
  unfold start_bot, doc_item, update_one.
  cbn [bson_document bson_value].
  destruct (doc_get "user_id" current_user) as [key |].
  2:{ split; [discriminate |]. intros e db' H. injection H as <- <-.
      split; [reflexivity | now left]. }
  destruct (find_one "user_id" key (subscriptions_collection db))
    as [s |] eqn:Hs.
  2:{ cbn [negb]. split; [discriminate |]. intros e db' H.
      injection H as <- <-. split; [reflexivity | now right]. }
  destruct (truthy (doc_get_default "is_active" VNone s)) eqn:Ha; cbn [negb].
  2:{ split; [discriminate |]. intros e db' H. injection H as <- <-.
      split; [reflexivity | now right]. }
  split; [| discriminate].
  intros msg db' H. injection H as <- <-.
  cbn [bot_configs_collection users_collection subscriptions_collection].
  pose proof (find_one_update_one "user_id" key
                [("is_active", VBool true);
                 ("started_at", VTime (utcnow - utcnow mod 1000))]
                true (bot_configs_collection db)
                (fun d Hd => start_bot_sets_keep key
                               (utcnow - utcnow mod 1000) "started_at"
                               true d ltac:(discriminate)
                               ltac:(discriminate) Hd)) as Hfu.
  exists key, s.
  destruct (find_one "user_id" key (bot_configs_collection db)) as [c0 |];
    eexists; (split; [reflexivity |]); (split; [exact Hs |]);
    (split; [exact Ha |]); (split; [exact Hfu |]);
    (split; [| split; reflexivity]);
    rewrite doc_get_update; reflexivity.
Qed.

(** A subscription granted by an administrator opens [start_bot] for that
    user whatever the number of days, also a negative one: the stored
    expiry, which is the time of the call plus the days, cut to the
    millisecond, is then in the past and the bot still starts. *)
Theorem granted_subscription_allows_start (user_id : string) (days : Z)
    (admin current_user : document) (t_expiry t_update t_start : Z)
    (db : database) :
  truthy (doc_get_default "is_admin" VNone admin) = true ->
  (Z.abs days <= 999999999)%Z ->
  (0 <= t_expiry + days * microseconds_per_day <= datetime_max)%Z ->
  doc_get "user_id" current_user = Some (VStr user_id) ->
  let granted :=
    update_subscription user_id days admin t_expiry t_update db in
  let expiry := (t_expiry + days * microseconds_per_day)%Z in
  fst granted =
    Return ("Subscription updated for " ++ str_of_int days ++ " days") /\
  (exists s : document,
      find_one "user_id" (VStr user_id)
               (subscriptions_collection (snd granted)) = Some s /\
      doc_get "is_active" s = Some (VBool true) /\
      doc_get "expires_at" s = Some (VTime (expiry - expiry mod 1000))) /\
  fst (start_bot current_user t_start (snd granted)) =
    Return "Bot started successfully".
Proof.
  intros Hadmin Hdays [Ht0 Ht1] Hkey. cbv zeta.
  unfold update_subscription. rewrite Hadmin. cbn [negb].
  unfold timedelta_days, obind, datetime_add. cbv zeta.
  apply Z.leb_le in Hdays, Ht0, Ht1. rewrite Hdays, Ht0, Ht1.
  unfold update_one. cbn [andb bson_document bson_value].
  cbn [fst snd subscriptions_collection].
  set (expiry := (t_expiry + days * microseconds_per_day)%Z).
  assert (Hfind :
    exists s : document,
      find_one "user_id" (VStr user_id)
        (apply_update "user_id" (VStr user_id)
           [ ("is_active", VBool true);
             ("expires_at", VTime (expiry - expiry mod 1000));
             ("updated_at", VTime (t_update - t_update mod 1000)) ]
           true (subscriptions_collection db)) = Some s /\
      doc_get "is_active" s = Some (VBool true) /\
      doc_get "expires_at" s = Some (VTime (expiry - expiry mod 1000))).
  { rewrite find_one_update_one
      by (intros d Hd; rewrite doc_matches_update_other;
          [exact Hd | reflexivity]).
    destruct (find_one "user_id" (VStr user_id) (subscriptions_collection db));
      eexists; (split; [reflexivity |]);
      split; rewrite doc_get_update; reflexivity. }
  split; [reflexivity |]. split; [exact Hfind |].
  destruct Hfind as [s [Hs [Hact _]]].
  unfold start_bot, doc_item. rewrite Hkey.
  cbn [subscriptions_collection]. rewrite Hs.
  unfold doc_get_default. rewrite Hact. reflexivity.
Qed.

Lemma granted_subscription_allows_start_witness :
  let admin := [("user_id", VStr "root"); ("is_admin", VBool true)] in
  let alice := [("user_id", VStr "alice")] in
  let db := mkDatabase [] [] [] in
  truthy (doc_get_default "is_admin" VNone admin) = true /\
  (Z.abs (-30) <= 999999999)%Z /\
  fst (start_bot alice 63900000000000000%Z
         (snd (update_subscription "alice" (-30) admin
                 63800000000000000%Z 63800000000000000%Z db))) =
    Return "Bot started successfully".
Proof.
  intros admin alice db.
  split; [reflexivity |]. split; [cbn; lia |].
  destruct (granted_subscription_allows_start "alice" (-30) admin alice
              63800000000000000%Z 63800000000000000%Z 63900000000000000%Z db)
    as [_ [_ H]];
    [reflexivity | cbn; lia | unfold datetime_max, microseconds_per_day; lia
    | reflexivity | exact H].
Defined.

(** [update_subscription] refuses a caller whose [is_admin] is not truthy
    with 403, and an administrator whose number of days, or the expiry
    date it gives, is out of range with an overflow; both refusals leave
    the database as it was, and it raises in no other way. *)
Theorem update_subscription_refused (user_id : string) (days : Z)
    (current_user : document) (t_expiry t_update : Z) (db : database) :
  (truthy (doc_get_default "is_admin" VNone current_user) = false ->
   update_subscription user_id days current_user t_expiry t_update db =
     (Raise (HTTPException 403 "Admin access required"), db)) /\
  (truthy (doc_get_default "is_admin" VNone current_user) = true ->
   (999999999 < Z.abs days)%Z \/
   ~ (0 <= t_expiry + days * microseconds_per_day <= datetime_max)%Z ->
   update_subscription user_id days current_user t_expiry t_update db =
     (Raise OverflowError, db)) /\
  (forall (e : http_exn) (db' : database),
      update_subscription user_id days current_user t_expiry t_update db
        = (Raise e, db') ->
      db' = db /\
      ((e = HTTPException 403 "Admin access required" /\
        truthy (doc_get_default "is_admin" VNone current_user) = false) \/
       (e = OverflowError /\
        truthy (doc_get_default "is_admin" VNone current_user) = true /\
        ((999999999 < Z.abs days)%Z \/
         ~ (0 <= t_expiry + days * microseconds_per_day
              <= datetime_max)%Z)))).
Proof.
  unfold update_subscription, update_one.
  cbn [bson_document bson_value].
  destruct (truthy (doc_get_default "is_admin" VNone current_user));
    cbn [negb].
  2:{ split; [reflexivity |]. split; [discriminate |].
      intros e db' H. injection H as <- <-. split; [reflexivity |]. left.
      now split. }
  split; [discriminate |].
  unfold timedelta_days, obind, datetime_add. cbv zeta.
  destruct (Z.leb_spec (Z.abs days) 999999999) as [Hd | Hd].
  - destruct (Z.leb_spec 0 (t_expiry + days * microseconds_per_day))
      as [H0 | H0]; cbn [andb].
    + destruct (Z.leb_spec (t_expiry + days * microseconds_per_day)
                  datetime_max) as [H1 | H1].
      * split; [intros _ [Hb | Hb]; [lia | elim Hb; lia] | discriminate].
      * split; [reflexivity |].
        intros e db' H. injection H as <- <-. split; [reflexivity |].
        right. repeat split. right. lia.
    + split; [reflexivity |].
      intros e db' H. injection H as <- <-. split; [reflexivity |].
      right. repeat split. right. lia.
  - split; [reflexivity |].
    intros e db' H. injection H as <- <-. split; [reflexivity |].
    right. repeat split. now left.
Qed.

Section FreshAccount.

Context (hashpw : string -> string -> outcome string).
Context (jwt_encode : document -> string).

(** A newly registered user cannot start the bot: unless a subscription
    for the new user id was stored beforehand, [start_bot] answers 403 and
    changes nothing. *)
Theorem registered_user_cannot_start_bot (user : UserRegister)
    (uuid4 salt : string) (t_user t_subscription t_token t_start : Z)
    (db db' : database) (r : AuthResponse) (current_user : document) :
  register hashpw jwt_encode user uuid4 salt t_user t_subscription t_token db
    = (Return r, db') ->
  find_one "user_id" (VStr uuid4) (subscriptions_collection db) = None ->
  doc_get "user_id" current_user = Some (VStr uuid4) ->
  start_bot current_user t_start db' =
    (Raise (HTTPException 403 "Active subscription required"), db').
Proof.
  intros Hreg Hnone Hkey.
  destruct (register_accepted hashpw jwt_encode _ _ _ _ _ _ _ _ _ Hreg)
    as [hashed [_ [_ [_ ->]]]].
  unfold start_bot, doc_item. rewrite Hkey.
  cbn [subscriptions_collection].
  rewrite (find_one_insert_new _ _ _ _ Hnone).
  unfold doc_matches at 1.
  cbn [doc_get String.eqb Ascii.eqb Bool.eqb value_match].
  rewrite String.eqb_refl. reflexivity.
Qed.

End FreshAccount.

Lemma registered_user_cannot_start_bot_witness :
  let user := mkUserRegister "a@example.com" "secret" "Alice" in
  let db := mkDatabase [] [] [] in
  let reg := register toy_hashpw toy_jwt_encode user "u-1" "salt"
               63800000000000000%Z 63800000000000000%Z 63800000000000000%Z
               db in
  (exists r, reg = (Return r, snd reg)) /\
  start_bot [("user_id", VStr "u-1")] 63800000000000000%Z (snd reg) =
    (Raise (HTTPException 403 "Active subscription required"), snd reg).
Proof.
  intros user db reg.
  assert (Hreg : reg = (Return (mkAuthResponse "u-1" "bearer" (VStr "u-1")
                                  (VStr "a@example.com") (VStr "Alice")),
                        snd reg)) by (vm_compute; reflexivity).
  split; [eexists; exact Hreg |].
  apply (registered_user_cannot_start_bot toy_hashpw toy_jwt_encode user
           "u-1" "salt" 63800000000000000%Z 63800000000000000%Z
           63800000000000000%Z 63800000000000000%Z db (snd reg) _
           [("user_id", VStr "u-1")] Hreg);
    reflexivity.
Defined.

Lemma register_then_login_witness :
  let user := mkUserRegister "a@example.com" "secret" "Alice" in
  let db := mkDatabase [] [] [] in
  let reg := register toy_hashpw toy_jwt_encode user "u-1" "salt"
               63800000000000000%Z 63800000000000000%Z 63800000000000000%Z
               db in
  (forall hashed : string,
      toy_hashpw "secret" "salt" = Return hashed ->
      toy_checkpw "secret" hashed = Return true) /\
  login toy_checkpw toy_jwt_encode (mkUserLogin "a@example.com" "secret")
        63900000000000000%Z (snd reg) =
    Return (mkAuthResponse "u-1" "bearer" (VStr "u-1")
              (VStr "a@example.com") (VStr "Alice")).
Proof.
  intros user db reg.
  assert (Hpw : forall hashed : string,
             toy_hashpw "secret" "salt" = Return hashed ->
             toy_checkpw "secret" hashed = Return true).
  { intros hashed H. injection H as <-. reflexivity. }
  assert (Hreg : reg = (Return (mkAuthResponse "u-1" "bearer" (VStr "u-1")
                                  (VStr "a@example.com") (VStr "Alice")),
                        snd reg)) by (vm_compute; reflexivity).
  split; [exact Hpw |].
  destruct (register_then_login toy_hashpw toy_checkpw toy_jwt_encode user
              "u-1" "salt" 63800000000000000%Z 63800000000000000%Z
              63800000000000000%Z 63900000000000000%Z db (snd reg) _
              Hpw ltac:(unfold datetime_max, microseconds_per_day; lia) Hreg)
    as [H _].
  exact H.
Defined.

Lemma register_keeps_emails_unique_witness :
  let user := mkUserRegister "a@example.com" "secret" "Alice" in
  let db := mkDatabase [[("email", VStr "b@example.com")]] [] [] in
  NoDup (email_keys (users_collection db)) /\
  NoDup (email_keys (users_collection
           (snd (register toy_hashpw toy_jwt_encode user "u-1" "salt" 0 0 0
                   db)))).
Proof.
  intros user db.
  assert (Hnd : NoDup (email_keys (users_collection db)))
    by (cbn; repeat constructor; intros []).
  split; [exact Hnd |].
  destruct (register_keeps_emails_unique toy_hashpw toy_jwt_encode user
              "u-1" "salt" 0 0 0 db Hnd) as [H _].
  exact H.
Defined.

Lemma login_invalid_credentials_witness :
  let db := mkDatabase
              [[("email", VStr "a@example.com");
                ("password", VStr "salt$secret")]] [] [] in
  login toy_checkpw toy_jwt_encode (mkUserLogin "a@example.com" "guess")
        0 db =
    Raise (HTTPException 401 "Invalid credentials") /\
  login toy_checkpw toy_jwt_encode (mkUserLogin "nobody@example.com" "guess")
        0 db =
    Raise (HTTPException 401 "Invalid credentials").
Proof.
  intros db. split.
  - apply (login_invalid_credentials toy_checkpw toy_jwt_encode
             (mkUserLogin "a@example.com" "guess") 0 db).
    right. eexists. eexists. repeat split; reflexivity.
  - apply (login_invalid_credentials toy_checkpw toy_jwt_encode
             (mkUserLogin "nobody@example.com" "guess") 0 db).
    left. reflexivity.
Defined.

(** ** Bot configuration and API keys *)

Lemma stop_bot_sets_keep (key : value) (utcnow : Z) (d : document) :
  doc_matches "user_id" key d = true ->
  doc_matches "user_id" key
    (doc_update d [("is_active", VBool false); ("stopped_at", VTime utcnow)])
  = true.
Proof.
  intros Hm. now rewrite doc_matches_update_other.
Qed.

(** [stop_bot] always reports success.  For a user without a stored
    configuration it changes nothing (it does not create one); for a user
    with one, [get_bot_config] afterwards reports [is_active] false. *)
Theorem stop_bot_effect (current_user : document) (key : value)
    (utcnow : Z) (db : database) :
  doc_get "user_id" current_user = Some key ->
  fst (stop_bot current_user utcnow db) = Return "Bot stopped successfully" /\
  (find_one "user_id" key (bot_configs_collection db) = None ->
   snd (stop_bot current_user utcnow db) = db) /\
  (forall c : document,
      find_one "user_id" key (bot_configs_collection db) = Some c ->
      exists r : document,
        get_bot_config current_user (snd (stop_bot current_user utcnow db))
          = Return r /\
        doc_get "is_active" r = Some (VBool false)).
Proof.
  intros Hkey. unfold stop_bot, doc_item, update_one. rewrite Hkey.
  cbn [bson_document bson_value fst snd].
  split; [reflexivity |]. split.
  - intros Hnone. rewrite apply_update_absent by exact Hnone.
    destruct db; reflexivity.
  - intros c Hc. unfold get_bot_config, doc_item, obind. rewrite Hkey.
    cbn [bot_configs_collection].
    rewrite find_one_update_one by (intros d; apply stop_bot_sets_keep).
    rewrite Hc. eexists. split; [reflexivity |].
    cbn [doc_get String.eqb Ascii.eqb Bool.eqb].
    unfold doc_get_default. now rewrite doc_get_update.
Qed.

Lemma stop_bot_effect_witness :
  let user := [("user_id", VStr "alice")] in
  let db := mkDatabase [] [] [] in
  doc_get "user_id" user = Some (VStr "alice") /\
  snd (stop_bot user 0 db) = db.
Proof.
  intros user db.
  assert (Hkey : doc_get "user_id" user = Some (VStr "alice")) by reflexivity.
  split; [exact Hkey |].
  destruct (stop_bot_effect user (VStr "alice") 0 db Hkey) as [_ [H _]].
  apply H. reflexivity.
Defined.

Lemma bot_config_sets (c : BotConfig) (key : value) (utcnow : Z) :
  doc_update (bot_config_dict c)
    [("user_id", key); ("updated_at", VTime utcnow)] =
  (bot_config_dict c ++ [("user_id", key); ("updated_at", VTime utcnow)])%list.
Proof. reflexivity. Qed.

Lemma bot_config_sets_keep (c : BotConfig) (key : value) (utcnow : Z)
    (d : document) :
  doc_matches "user_id" key
    (doc_update d
       (bot_config_dict c ++
        [("user_id", key); ("updated_at", VTime utcnow)])%list) = true.
Proof.
  unfold doc_matches. rewrite doc_get_update.
  cbn [bot_config_dict app rev doc_get String.eqb Ascii.eqb Bool.eqb].
  apply value_match_refl.
Qed.

Lemma bot_config_sets_bson (c : BotConfig) (key : value) (utcnow : Z) :
  bson_value key = Return key ->
  bson_document
    (bot_config_dict c ++
     [("user_id", key); ("updated_at", VTime utcnow)])%list
  = if int64 (bot_leverage c) then
      Return (bot_config_dict c ++
              [("user_id", key);
               ("updated_at", VTime (utcnow - utcnow mod 1000))])%list
    else Raise OverflowError.
Proof.
  intros Hkey.
  cbn [bot_config_dict app bson_document bson_value].
  destruct (int64 (bot_leverage c)); [| reflexivity].
  now rewrite Hkey.
Qed.

(** What [update_bot_config] stores, [get_bot_config] returns: for a
    leverage that fits into 64 bits, the six settings of the request
    together with the [is_active] the user's configuration had before, or
    false when there was none.  A leverage beyond 64 bits cannot be
    written: the update raises and stores nothing. *)
Theorem bot_config_round_trip (config : BotConfig) (current_user : document)
    (key : value) (utcnow : Z) (db : database) :
  doc_get "user_id" current_user = Some key ->
  bson_value key = Return key ->
  (int64 (bot_leverage config) = true ->
   get_bot_config current_user
     (snd (update_bot_config config current_user utcnow db)) =
   Return
     (bot_config_dict config ++
      [("is_active",
        match find_one "user_id" key (bot_configs_collection db) with
        | Some old => doc_get_default "is_active" (VBool false) old
        | None => VBool false
        end)])%list) /\
  (int64 (bot_leverage config) = false ->
   update_bot_config config current_user utcnow db =
     (Raise OverflowError, db)).
Proof.
  intros Hkey Hbson.
  unfold update_bot_config, doc_item, update_one.
  rewrite Hkey, bot_config_sets, (bot_config_sets_bson _ _ _ Hbson).
  split; intros Hlev; rewrite Hlev; [| reflexivity].
  unfold get_bot_config, doc_item, obind. rewrite Hkey.
  cbn [snd bot_configs_collection].
  rewrite find_one_update_one by (intros d _; apply bot_config_sets_keep).
  unfold doc_get_default.
  destruct (find_one "user_id" key (bot_configs_collection db)) as [old |];
    rewrite !doc_get_update;
    cbn [bot_config_dict app rev doc_get String.eqb Ascii.eqb Bool.eqb];
    reflexivity.
Qed.

Lemma bot_config_round_trip_witness :
  let user := [("user_id", VStr "alice")] in
  let config := mkBotConfig "ETHUSDT" "5m" 3 (5 # 2) (3 # 2) 25 in
  doc_get "user_id" user = Some (VStr "alice") /\
  bson_value (VStr "alice") = Return (VStr "alice") /\
  get_bot_config user
    (snd (update_bot_config config user 0 (mkDatabase [] [] []))) =
  Return (bot_config_dict config ++ [("is_active", VBool false)])%list.
Proof.
  intros user config.
  assert (Hkey : doc_get "user_id" user = Some (VStr "alice")) by reflexivity.
  assert (Hb : bson_value (VStr "alice") = Return (VStr "alice"))
    by reflexivity.
  split; [exact Hkey |]. split; [exact Hb |].
  destruct (bot_config_round_trip config user (VStr "alice") 0
              (mkDatabase [] [] []) Hkey Hb) as [H _].
  apply H. reflexivity.
Defined.

Lemma api_key_sets_keep (data : ApiKeyUpdate) (key : value) (utcnow : Z)
    (d : document) :
  doc_matches "user_id" key d = true ->
  doc_matches "user_id" key
    (doc_update d
       [ ("api_key", VStr (api_key data));
         ("api_secret", VStr (api_secret data));
         ("updated_at", VTime utcnow) ]) = true.
Proof.
  intros Hm. now rewrite doc_matches_update_other.
Qed.

(** After [update_api_key] the user's document holds the new key and
    secret and is otherwise as before, and [get_profile] reports
    [has_api_key] exactly when the new key is not the empty text.  A user
    id without a document gets none. *)
Theorem update_api_key_profile (api_data : ApiKeyUpdate)
    (current_user : document) (key : value) (utcnow : Z) (db : database) :
  doc_get "user_id" current_user = Some key ->
  let db' := snd (update_api_key api_data current_user utcnow db) in
  (find_one "user_id" key (users_collection db) = None -> db' = db) /\
  (forall u : document,
      find_one "user_id" key (users_collection db) = Some u ->
      exists u' : document,
        find_one "user_id" key (users_collection db') = Some u' /\
        doc_get "api_key" u' = Some (VStr (api_key api_data)) /\
        doc_get "api_secret" u' = Some (VStr (api_secret api_data)) /\
        (forall k, k <> "api_key" -> k <> "api_secret" ->
                   k <> "updated_at" -> doc_get k u' = doc_get k u) /\
        (forall p : ProfileResponse,
            get_profile u' db' = Return p ->
            has_api_key p = negb (String.eqb (api_key api_data) ""))).
Proof.
  intros Hkey. cbv zeta. unfold update_api_key, doc_item, update_one.
  rewrite Hkey. cbn [bson_document bson_value snd users_collection]. split.
  - intros Hnone. rewrite apply_update_absent by exact Hnone.
    destruct db; reflexivity.
  - intros u Hu.
    rewrite find_one_update_one by (intros d; apply api_key_sets_keep).
    rewrite Hu. eexists. split; [reflexivity |].
    split; [now rewrite doc_get_update |].
    split; [now rewrite doc_get_update |].
    split.
    + intros k H1 H2 H3. rewrite doc_get_update.
      cbn [rev app doc_get].
      apply String.eqb_neq in H1, H2, H3. now rewrite H1, H2, H3.
    + intros p. unfold get_profile, doc_item, obind, doc_get_default.
      destruct (doc_get "user_id" (doc_update u _)); [| discriminate].
      destruct (doc_get "email" (doc_update u _)); [| discriminate].
      destruct (doc_get "name" (doc_update u _)); [| discriminate].
      intros H. rewrite !doc_get_update in H. injection H as <-.
      reflexivity.
Qed.

Lemma update_api_key_profile_witness :
  let user := [("user_id", VStr "alice"); ("api_key", VNone)] in
  let db := mkDatabase [user] [] [] in
  doc_get "user_id" user = Some (VStr "alice") /\
  exists u' : document,
    find_one "user_id" (VStr "alice")
      (users_collection
         (snd (update_api_key (mkApiKeyUpdate "k" "s") user 0 db)))
      = Some u' /\
    doc_get "api_key" u' = Some (VStr "k").
Proof.
  intros user db.
  assert (Hkey : doc_get "user_id" user = Some (VStr "alice")) by reflexivity.
  split; [exact Hkey |].
  destruct (update_api_key_profile (mkApiKeyUpdate "k" "s") user
              (VStr "alice") 0 db Hkey) as [_ H].
  destruct (H user eq_refl) as [u' [H1 [H2 _]]].
  exists u'. split; [exact H1 | exact H2].
Defined.
